(** * Check_list_ocupalli: a shallow embedding of the clinic checklist core

    The first part follows [src/Check_list_ocupalli.py], one module per
    class:
    - [PyText], [PyList]: the pieces of Python's [str] and [list] the
      program relies on ([re.sub(r'[^0-9]', '', s)], [strip], [split],
      [isdigit], slices, [remove], [index], [in]);
    - [ValidadorAvancado]: the stateless validators;
    - [GerenciadorHistorico]: the append-only record store;
    - [SistemaClinico]: the procedure catalog, the mandatory list, the
      CPF helpers and the sizing arithmetic of [gerar_pdf_checklist];
    - [GerenciadorInterface]: the ordering rule of the selection list,
      the selection handlers, the validation of the form and the
      generation of a checklist;
    - [InterfaceHistorico]: the records listed by the history window.
    The second part holds the notions the statements use and the sample
    inputs; the third part holds the properties, first those of the
    specification, then further properties of the code.

    Modelling conventions.  Free text (a person's name, a CPF, an exam
    type, a search filter) is a [string] whose characters are read as the
    code points 0..255, and the text primitives act on it as Python's do
    on such code points.  Procedure names and messages are opaque
    [string] literals, written as in the source and only compared for
    equality or returned; procedure names are the keys of a [gmap] (the
    insertion order of a [dict] is not modelled).  Python
    [int] is [Z]; Python [float] is modelled by exact rational arithmetic
    in [Q], without rounding.  Methods that change an object return the
    new object next to their result; the clock and the fate of a file
    write are inputs. *)

From Stdlib Require Import ZArith QArith Qround Lqa Ascii String List Permutation
  Sorted.
From stdpp Require Import base decidable list gmap strings.

Local Open Scope Z_scope.

(** ** Python text primitives *)

Module PyText.

Definition str := list ascii.

Definition of_string (s : string) : str := list_ascii_of_string s.
Definition to_string (l : str) : string := string_of_list_ascii l.

Definition ord (c : ascii) : nat := nat_of_ascii c.

(** The character class [[0-9]] of [re]. *)
Definition is_09 (c : ascii) : bool :=
  ((48 <=? ord c) && (ord c <=? 57))%nat.

(** [re.sub(r'[^0-9]', '', s)]. *)
Definition re_sub_nao_digitos (s : str) : str := List.filter is_09 s.

(** [int(c)] for a character [c] of class [[0-9]]. *)
Definition int_of_char (c : ascii) : Z := Z.of_nat (ord c) - 48.

(** [str.isspace] on one code point below 256. *)
Definition isspace (c : ascii) : bool :=
  (((9 <=? ord c) && (ord c <=? 13)) || ((28 <=? ord c) && (ord c <=? 32))
   || (ord c =? 133) || (ord c =? 160))%nat.

(** [str.isdigit] on one code point below 256: the ASCII digits and the
    superscripts U+00B2, U+00B3, U+00B9. *)
Definition isdigit (c : ascii) : bool :=
  (is_09 c || (ord c =? 178) || (ord c =? 179) || (ord c =? 185))%nat.

Fixpoint lstrip (s : str) : str :=
  match s with
  | [] => []
  | c :: s' => if isspace c then lstrip s' else s
  end.

Definition rstrip (s : str) : str := rev (lstrip (rev s)).

(** [s.strip()] *)
Definition strip (s : str) : str := rstrip (lstrip s).

(** [s.split()]: maximal runs of non-space characters.  [cur] holds the
    run being read, most recent character first. *)
Fixpoint split_aux (cur : str) (s : str) : list str :=
  match s with
  | [] => match cur with [] => [] | _ => [rev cur] end
  | c :: s' =>
      if isspace c
      then match cur with
           | [] => split_aux [] s'
           | _ => rev cur :: split_aux [] s'
           end
      else split_aux (c :: cur) s'
  end.

Definition split (s : str) : list str := split_aux [] s.

(** Slices [s[a:b]] and [s[a:]] for [0 <= a <= b]. *)
Definition slice (a b : nat) (s : str) : str := take (b - a) (drop a s).
Definition slice_from (a : nat) (s : str) : str := drop a s.

(** [s[i]]; the callers only index inside the string. *)
Definition char_at (i : nat) (s : str) : ascii := nth i s "000"%char.

(** [str.lower] on one code point below 256: the ASCII capitals and the
    Latin-1 capitals U+00C0..U+00DE (U+00D7, the multiplication sign, is
    not a letter). *)
Definition lower_char (c : ascii) : ascii :=
  if (((65 <=? ord c) && (ord c <=? 90))
      || ((192 <=? ord c) && (ord c <=? 222) && negb (ord c =? 215)))%nat
  then ascii_of_nat (ord c + 32)
  else c.

(** [s.lower()] *)
Definition lower (s : str) : str := map lower_char s.

(** [b.startswith(a)] *)
Fixpoint startswith (a b : str) : bool :=
  match a, b with
  | [], _ => true
  | _ :: _, [] => false
  | x :: a', y :: b' => Ascii.eqb x y && startswith a' b'
  end.

(** [a in b], the substring test. *)
Fixpoint in_str (a b : str) : bool :=
  match b with
  | [] => startswith a []
  | _ :: b' => startswith a b || in_str a b'
  end.

(** [s.replace(c, '')] for a one-character [c]. *)
Definition remove_char (c : ascii) (s : str) : str :=
  List.filter (fun x => negb (Ascii.eqb x c)) s.

(** [s.replace(a, b)] for one-character [a] and [b]. *)
Definition replace_char (a b : ascii) (s : str) : str :=
  map (fun x => if Ascii.eqb x a then b else x) s.

(** [s.isdigit()]: at least one character, and digits only. *)
Definition str_isdigit (s : str) : bool :=
  match s with
  | [] => false
  | _ => forallb isdigit s
  end.

End PyText.

(** ** Stateless validators *)

Module ValidadorAvancado.
Import PyText.

(** [validar_nome_completo(nome)] *)
Definition validar_nome_completo (nome : string) : bool * string :=
  let n := of_string nome in
  if bool_decide (n = []) || (length (strip n) <? 3)%nat
  then (false, "Nome deve ter pelo menos 3 caracteres"%string)
  else
    let palavras := split (strip n) in
    if (length palavras <? 2)%nat
    then (false, "Digite o nome completo (nome e sobrenome)"%string)
    else if existsb isdigit n
         then (false, "Nome não pode conter números"%string)
         else (true, EmptyString).

(** The quantity the specification speaks of: characters of the name that
    are not whitespace. *)
Definition caracteres_nao_espaco (nome : string) : nat :=
  length (List.filter (fun c => negb (isspace c)) (of_string nome)).

(** [validar_procedimentos_minimos(procedimentos, obrigatorios)] *)
Definition validar_procedimentos_minimos
    (procedimentos obrigatorios : list string) : bool * string :=
  match procedimentos with
  | [] => (false, "Selecione pelo menos um procedimento"%string)
  | _ =>
      let faltantes :=
        List.filter (fun proc => negb (bool_decide (proc ∈ procedimentos)))
                    obrigatorios in
      match faltantes with
      | [] => (true, EmptyString)
      | _ => (false,
              ("Procedimentos obrigatórios faltantes: "
                 +:+ String.concat ", " faltantes)%string)
      end
  end.

(** The only entry of the table [restricoes]. *)
Definition proibidos_demissional : list string :=
  ["Raio-X Tórax"; "Espirometria"]%string.

(** [validar_compatibilidade_tipo_procedimentos(tipo_exame, procedimentos)] *)
Definition validar_compatibilidade_tipo_procedimentos
    (tipo_exame : string) (procedimentos : list string) : bool * string :=
  let tipo_lower := to_string (lower (of_string tipo_exame)) in
  if bool_decide (tipo_lower = "demissional"%string)
  then
    let proibidos_encontrados :=
      List.filter (fun p => bool_decide (p ∈ proibidos_demissional))
                  procedimentos in
    match proibidos_encontrados with
    | [] => (true, EmptyString)
    | _ => (false,
            ("Procedimentos " +:+ String.concat ", " proibidos_encontrados
               +:+ " não são necessários para exame demissional")%string)
    end
  else (true, EmptyString).

End ValidadorAvancado.

(** ** Python list primitives used on name lists *)

Module PyList.

(** [l.remove(x)]: drops the first occurrence of [x].  Python raises when
    [x] is absent; every caller tests membership first. *)
Fixpoint remove (x : string) (l : list string) : list string :=
  match l with
  | [] => []
  | y :: l' => if decide (x = y) then l' else y :: remove x l'
  end.

(** [l.index(x)]: position of the first occurrence, [None] where Python
    raises. *)
Fixpoint index (x : string) (l : list string) : option nat :=
  match l with
  | [] => None
  | y :: l' => if decide (x = y) then Some 0%nat else S <$> index x l'
  end.

(** [x in l] *)
Definition contains (x : string) (l : list string) : bool :=
  bool_decide (x ∈ l).

End PyList.

(** ** The record store *)

Module GerenciadorHistorico.

Record registro := {
  id : Z;
  timestamp : string;
  data_formatada : string;
  nome : string;
  cpf : string;
  tipo_exame : string;
  procedimentos : list string;
  arquivo_pdf : string;
  editado : bool;
  historico_edicoes : list string
}.

(** The object: the in-memory list and the JSON file it is dumped to
    ([None]: the file was never written). *)
Record t := {
  historico : list registro;
  arquivo_historico : option (list registro)
}.

Definition vazio : t := {| historico := []; arquivo_historico := None |}.

(** The two readings of [datetime.now()] that one call makes. *)
Record agora := { isoformat : string; strftime : string }.

(** [salvar_historico]: [grava] tells whether the write went through; a
    failed write is swallowed and only changes the returned flag. *)
Definition salvar_historico (grava : bool) (h : t) : bool * t :=
  if grava
  then (true, {| historico := historico h;
                 arquivo_historico := Some (historico h) |})
  else (false, h).

(** [adicionar_checklist(nome, cpf, tipo_exame, procedimentos, arquivo_pdf)] *)
Definition adicionar_checklist (now : agora) (grava : bool)
    (nome cpf tipo_exame : string) (procedimentos : list string)
    (arquivo_pdf : string) (h : t) : Z * t :=
  let novo_registro := {|
    id := Z.of_nat (length (historico h)) + 1;
    timestamp := isoformat now;
    data_formatada := strftime now;
    nome := PyText.to_string (PyText.strip (PyText.of_string nome));
    cpf := cpf;
    tipo_exame := tipo_exame;
    procedimentos := procedimentos;
    arquivo_pdf := arquivo_pdf;
    editado := false;
    historico_edicoes := [] |} in
  let h1 := {| historico := historico h ++ [novo_registro];
               arquivo_historico := arquivo_historico h |} in
  let '(_, h2) := salvar_historico grava h1 in
  (id novo_registro, h2).

(** One submission, with the clock readings and the fate of the write. *)
Record entrada := {
  e_now : agora; e_grava : bool;
  e_nome : string; e_cpf : string; e_tipo : string;
  e_procs : list string; e_pdf : string
}.

Definition adicionar (e : entrada) (h : t) : Z * t :=
  adicionar_checklist (e_now e) (e_grava e) (e_nome e) (e_cpf e) (e_tipo e)
                      (e_procs e) (e_pdf e) h.

(** A run of submissions: the ids returned, in order, and the final store. *)
Fixpoint adicionar_todos (es : list entrada) (h : t) : list Z * t :=
  match es with
  | [] => ([], h)
  | e :: es' =>
      let '(i, h1) := adicionar e h in
      let '(ids, h2) := adicionar_todos es' h1 in
      (i :: ids, h2)
  end.

(** [sorted(resultados, key=lambda x: x['timestamp'], reverse=True)]: a
    stable sort, greatest timestamp first; strings compare code point by
    code point. *)
Fixpoint inserir_recente (r : registro) (l : list registro) : list registro :=
  match l with
  | [] => [r]
  | r' :: l' =>
      if String.ltb (timestamp r) (timestamp r')
      then r' :: inserir_recente r l'
      else r :: l
  end.

Definition ordenar_recentes (l : list registro) : list registro :=
  foldr inserir_recente [] l.

(** [buscar_por_funcionario(nome_parcial)] *)
Definition buscar_por_funcionario (nome_parcial : string) (h : t)
    : list registro :=
  let nome_limpo := PyText.lower (PyText.strip (PyText.of_string nome_parcial)) in
  ordenar_recentes
    (List.filter
       (fun r => PyText.in_str nome_limpo
                   (PyText.lower (PyText.of_string (nome r))))
       (historico h)).

(** [s.replace('.', '').replace('-', '').strip()] *)
Definition limpar_cpf (s : string) : PyText.str :=
  PyText.strip
    (PyText.remove_char "-" (PyText.remove_char "." (PyText.of_string s))).

(** [buscar_por_cpf(cpf)] *)
Definition buscar_por_cpf (cpf_buscado : string) (h : t) : list registro :=
  let cpf_limpo := limpar_cpf cpf_buscado in
  ordenar_recentes
    (List.filter (fun r => bool_decide (cpf_limpo = limpar_cpf (cpf r)))
                 (historico h)).

(** One value of the dictionary [funcionarios]. *)
Record funcionario := {
  func_nome : string;
  func_cpf : string;
  ultimo_tipo_exame : string;
  ultima_data : string;
  total_checklists : Z;
  func_timestamp : string
}.

(** The dictionary [funcionarios], in insertion order: assigning to a key
    that is present keeps its place. *)
Fixpoint dict_get (k : string) (d : list (string * funcionario))
    : option funcionario :=
  match d with
  | [] => None
  | (k', v) :: d' => if decide (k = k') then Some v else dict_get k d'
  end.

Fixpoint dict_set (k : string) (v : funcionario)
    (d : list (string * funcionario)) : list (string * funcionario) :=
  match d with
  | [] => [(k, v)]
  | (k', v') :: d' =>
      if decide (k = k') then (k, v) :: d' else (k', v') :: dict_set k v d'
  end.

Definition resumo_de (r : registro) : funcionario :=
  {| func_nome := nome r; func_cpf := cpf r;
     ultimo_tipo_exame := tipo_exame r; ultima_data := data_formatada r;
     total_checklists := 0; func_timestamp := timestamp r |}.

(** First loop of [obter_funcionarios_unicos]: keep, per name, the record
    with the greatest timestamp (the earliest one on a tie). *)
Definition mais_recentes (l : list registro) (d : list (string * funcionario))
    : list (string * funcionario) :=
  foldl (fun d r =>
           match dict_get (nome r) d with
           | None => dict_set (nome r) (resumo_de r) d
           | Some f =>
               if String.ltb (func_timestamp f) (timestamp r)
               then dict_set (nome r) (resumo_de r) d
               else d
           end) d l.

(** Second loop: count the records of each name. *)
Definition contar (l : list registro) (d : list (string * funcionario))
    : list (string * funcionario) :=
  foldl (fun d r =>
           match dict_get (nome r) d with
           | Some f =>
               dict_set (nome r)
                 {| func_nome := func_nome f; func_cpf := func_cpf f;
                    ultimo_tipo_exame := ultimo_tipo_exame f;
                    ultima_data := ultima_data f;
                    total_checklists := total_checklists f + 1;
                    func_timestamp := func_timestamp f |} d
           | None => d
           end) d l.

(** [obter_funcionarios_unicos()] *)
Definition obter_funcionarios_unicos (h : t) : list funcionario :=
  map snd (contar (historico h) (mais_recentes (historico h) [])).

End GerenciadorHistorico.

(** ** The procedure catalog, the CPF helpers and the page layout *)

Module SistemaClinico.
Import PyText.

(** The attribute payload of a catalog entry: [{"requer_laudo": b}]. *)
Record dados := { requer_laudo : bool }.

(** What [procedimentos.json] may hold: the legacy plain list of names or
    the dictionary. *)
Inductive procedimentos_json :=
| ListaSimples (nomes : list string)
| Dicionario (db : gmap string dados).

(** The two files.  [config_json = Some None] is a configuration file
    without the key [procedimentos_obrigatorios]. *)
Record arquivos := {
  arq_procedimentos : option procedimentos_json;
  arq_config : option (option (list string))
}.

Record t := {
  procedimentos_db : gmap string dados;
  procedimentos_obrigatorios : list string;
  disco : arquivos
}.

Definition obrigatorios_padrao : list string :=
  ["Exame Clínico"; "Faturamento"; "Triagem"]%string.

Definition procedimentos_iniciais : list string :=
  ["Exame Clínico"; "Faturamento"; "Triagem"; "Audiometria"; "Espirometria";
   "Eletrocardiograma"; "Hemograma Completo"; "Glicemia";
   "Exame de Urina"; "Raio-X Tórax"; "Acuidade Visual";
   "Exame Dermatológico"]%string.

(** [for proc in nomes: db[proc] = {"requer_laudo": False}] *)
Definition inserir_todos (nomes : list string) (db : gmap string dados)
    : gmap string dados :=
  foldl (fun m proc => <[proc := {| requer_laudo := false |}]> m) db nomes.

(** [salvar_procedimentos] and [salvar_config]; the writes are taken to go
    through (a failed write is swallowed and leaves the object as it is). *)
Definition salvar_procedimentos (s : t) : t :=
  {| procedimentos_db := procedimentos_db s;
     procedimentos_obrigatorios := procedimentos_obrigatorios s;
     disco := {| arq_procedimentos := Some (Dicionario (procedimentos_db s));
                 arq_config := arq_config (disco s) |} |}.

Definition salvar_config (s : t) : t :=
  {| procedimentos_db := procedimentos_db s;
     procedimentos_obrigatorios := procedimentos_obrigatorios s;
     disco := {| arq_procedimentos := arq_procedimentos (disco s);
                 arq_config := Some (Some (procedimentos_obrigatorios s)) |} |}.

(** [carregar_dados], started from the fields [__init__] has just set. *)
Definition carregar_dados (d : arquivos) : t :=
  let s0 :=
    match arq_procedimentos d with
    | Some (ListaSimples nomes) =>
        {| procedimentos_db := inserir_todos nomes ∅;
           procedimentos_obrigatorios := obrigatorios_padrao; disco := d |}
    | Some (Dicionario db) =>
        {| procedimentos_db := db;
           procedimentos_obrigatorios := obrigatorios_padrao; disco := d |}
    | None =>
        salvar_procedimentos
          {| procedimentos_db := inserir_todos procedimentos_iniciais ∅;
             procedimentos_obrigatorios := obrigatorios_padrao; disco := d |}
    end in
  match arq_config d with
  | Some cfg =>
      {| procedimentos_db := procedimentos_db s0;
         procedimentos_obrigatorios := default obrigatorios_padrao cfg;
         disco := disco s0 |}
  | None => s0
  end.

(** First loop of the reconciliation: append each absent baseline name. *)
Definition completar_obrigatorios (ob : list string) : list string :=
  foldl (fun l obrig => if PyList.contains obrig l then l else l ++ [obrig])
        ob obrigatorios_padrao.

(** Second loop: add each absent baseline name to the catalog. *)
Definition completar_db (db : gmap string dados) : gmap string dados :=
  foldl (fun m obrig =>
           match m !! obrig with
           | Some _ => m
           | None => <[obrig := {| requer_laudo := false |}]> m
           end)
        db obrigatorios_padrao.

(** [_garantir_procedimentos_obrigatorios_completos] *)
Definition _garantir_procedimentos_obrigatorios_completos (s : t) : t :=
  salvar_config (salvar_procedimentos
    {| procedimentos_db := completar_db (procedimentos_db s);
       procedimentos_obrigatorios :=
         completar_obrigatorios (procedimentos_obrigatorios s);
       disco := disco s |}).

(** [__init__]: load, then reconcile. *)
Definition init (d : arquivos) : t :=
  _garantir_procedimentos_obrigatorios_completos (carregar_dados d).

(** [procedimento_requer_laudo] *)
Definition procedimento_requer_laudo (db : gmap string dados)
    (procedimento : string) : bool :=
  match db !! procedimento with
  | Some d => requer_laudo d
  | None => false
  end.

(** [adicionar_procedimento] *)
Definition adicionar_procedimento (procedimento : string) (s : t) : bool * t :=
  if negb (bool_decide (procedimento = EmptyString))
     && negb (bool_decide (is_Some (procedimentos_db s !! procedimento)))
  then (true, salvar_procedimentos
          {| procedimentos_db :=
               <[procedimento := {| requer_laudo := false |}]>
                 (procedimentos_db s);
             procedimentos_obrigatorios := procedimentos_obrigatorios s;
             disco := disco s |})
  else (false, s).

(** [remover_procedimento_db] *)
Definition remover_procedimento_db (procedimento : string) (s : t) : bool * t :=
  if bool_decide (is_Some (procedimentos_db s !! procedimento))
  then (true, salvar_procedimentos
          {| procedimentos_db := delete procedimento (procedimentos_db s);
             procedimentos_obrigatorios := procedimentos_obrigatorios s;
             disco := disco s |})
  else (false, s).

(** [alternar_obrigatorio] *)
Definition alternar_obrigatorio (procedimento : string) (s : t) : bool * t :=
  let ob := procedimentos_obrigatorios s in
  let ob' := if PyList.contains procedimento ob
             then PyList.remove procedimento ob
             else ob ++ [procedimento] in
  (true, salvar_config
     {| procedimentos_db := procedimentos_db s;
        procedimentos_obrigatorios := ob';
        disco := disco s |}).

(** [editar_procedimento_db] *)
Definition editar_procedimento_db (procedimento_antigo procedimento_novo : string)
    (s : t) : bool * t :=
  match procedimentos_db s !! procedimento_antigo with
  | Some dados_antigos =>
      if bool_decide (procedimento_novo = EmptyString) then (false, s)
      else
        let db' := <[procedimento_novo := dados_antigos]>
                     (delete procedimento_antigo (procedimentos_db s)) in
        let ob := procedimentos_obrigatorios s in
        let ob' :=
          if PyList.contains procedimento_antigo ob
          then match PyList.index procedimento_antigo ob with
               | Some obrig_index => <[obrig_index := procedimento_novo]> ob
               | None => ob
               end
          else ob in
        (true, salvar_config (salvar_procedimentos
           {| procedimentos_db := db';
              procedimentos_obrigatorios := ob';
              disco := disco s |}))
  | None => (false, s)
  end.

(** [definir_requer_laudo] *)
Definition definir_requer_laudo (procedimento : string) (requer : bool) (s : t)
    : bool * t :=
  match procedimentos_db s !! procedimento with
  | Some _ =>
      (true, salvar_procedimentos
         {| procedimentos_db :=
              <[procedimento := {| requer_laudo := requer |}]>
                (procedimentos_db s);
            procedimentos_obrigatorios := procedimentos_obrigatorios s;
            disco := disco s |})
  | None => (false, s)
  end.

(** [validar_cpf]: the weighted sums
    [sum(int(cpf[i]) * (peso - i) for i in range(n))]. *)
Definition soma_ponderada (cpf : str) (n : nat) (peso : Z) : Z :=
  foldr Z.add 0
    (map (fun i => int_of_char (char_at i cpf) * (peso - Z.of_nat i)) (seq 0 n)).

(** [resto = 11 - (soma % 11)], then 10 and 11 become 0. *)
Definition resto_de (soma : Z) : Z :=
  let resto := 11 - soma mod 11 in
  if (resto =? 10) || (resto =? 11) then 0 else resto.

Definition validar_cpf (cpf : string) : bool :=
  let cpf := re_sub_nao_digitos (of_string cpf) in
  if negb (length cpf =? 11)%nat then false
  else if bool_decide (cpf = replicate 11 (char_at 0 cpf)) then false
  else if negb (resto_de (soma_ponderada cpf 9 10) =? int_of_char (char_at 9 cpf))
  then false
  else if negb (resto_de (soma_ponderada cpf 10 11) =? int_of_char (char_at 10 cpf))
  then false
  else true.

(** The mask applied to the stripped digits. *)
Definition mascara (cpf : str) : str :=
  let ponto := ["."%char] in
  let hifen := ["-"%char] in
  if (length cpf <=? 3)%nat then cpf
  else if (length cpf <=? 6)%nat then
    slice 0 3 cpf ++ ponto ++ slice_from 3 cpf
  else if (length cpf <=? 9)%nat then
    slice 0 3 cpf ++ ponto ++ slice 3 6 cpf ++ ponto ++ slice_from 6 cpf
  else if (length cpf <=? 11)%nat then
    slice 0 3 cpf ++ ponto ++ slice 3 6 cpf ++ ponto ++ slice 6 9 cpf
      ++ hifen ++ slice_from 9 cpf
  else
    slice 0 3 cpf ++ ponto ++ slice 3 6 cpf ++ ponto ++ slice 6 9 cpf
      ++ hifen ++ slice 9 11 cpf.

(** [formatar_cpf] *)
Definition formatar_cpf (cpf : string) : string :=
  to_string (mascara (re_sub_nao_digitos (of_string cpf))).

(** *** The body of the page: [gerar_pdf_checklist], lines 502-591 *)

Local Open Scope Q_scope.

(** [reportlab.lib.units.mm] and [reportlab.lib.pagesizes.A4], in points:
    [inch = 72.0], [cm = inch / 2.54], [mm = cm * 0.1]. *)
Definition mm : Q := 72 / (254 # 100) * (1 # 10).
Definition A4 : Q * Q := (210 * mm, 297 * mm).

(** [int(x)] on a float: truncation toward zero. *)
Definition py_int (x : Q) : Z := Z.quot (Qnum x) (Zpos (Qden x)).

Record tamanhos := {
  fonte_numero : Z;
  fonte_procedimento : Z;
  fonte_subitem : Z;
  espaco_procedimento : Z;
  espaco_subitem : Z;
  espaco_extra : Z;
  tamanho_checkbox : Z;
  tamanho_subcheckbox : Z
}.

(** [calcular_espaco_necessario] *)
Definition calcular_espaco_necessario (db : gmap string dados)
    (procedimentos_selecionados : list string) : Z :=
  foldl (fun espaco_total proc =>
           let e1 := (espaco_total + 25)%Z in
           let e2 := if procedimento_requer_laudo db proc
                     then (e1 + 20)%Z else e1 in
           (e2 + 10)%Z)
        0%Z procedimentos_selecionados.

Definition y_inicio (height : Q) : Q := height - 270.
Definition y_final : Q := 80.
Definition espaco_disponivel (height : Q) : Q := y_inicio height - y_final.

Definition fator_escala (height : Q) (espaco_necessario : Z) : Q :=
  espaco_disponivel height / inject_Z espaco_necessario.

(** The [if espaco_necessario > espaco_disponivel: ... else: ...] block. *)
Definition calcular_tamanhos (height : Q) (espaco_necessario : Z) : tamanhos :=
  if negb (Qle_bool (inject_Z espaco_necessario) (espaco_disponivel height))
  then
    let f := fator_escala height espaco_necessario in
    {| fonte_numero := Z.max 10 (py_int (14 * f));
       fonte_procedimento := Z.max 9 (py_int (12 * f));
       fonte_subitem := Z.max 8 (py_int (10 * f));
       espaco_procedimento := Z.max 18 (py_int (25 * f));
       espaco_subitem := Z.max 15 (py_int (20 * f));
       espaco_extra := Z.max 5 (py_int (10 * f));
       tamanho_checkbox := Z.max 12 (py_int (15 * f));
       tamanho_subcheckbox := Z.max 10 (py_int (12 * f)) |}
  else
    {| fonte_numero := 14; fonte_procedimento := 12; fonte_subitem := 10;
       espaco_procedimento := 25; espaco_subitem := 20; espaco_extra := 10;
       tamanho_checkbox := 15; tamanho_subcheckbox := 12 |}.

(** The minimum of each element, as written in the [max(...)] calls. *)
Definition pisos : tamanhos :=
  {| fonte_numero := 10; fonte_procedimento := 9; fonte_subitem := 8;
     espaco_procedimento := 18; espaco_subitem := 15; espaco_extra := 5;
     tamanho_checkbox := 12; tamanho_subcheckbox := 10 |}.

Definition acima_de (p t : tamanhos) : Prop :=
  (fonte_numero p <= fonte_numero t
   /\ fonte_procedimento p <= fonte_procedimento t
   /\ fonte_subitem p <= fonte_subitem t
   /\ espaco_procedimento p <= espaco_procedimento t
   /\ espaco_subitem p <= espaco_subitem t
   /\ espaco_extra p <= espaco_extra t
   /\ tamanho_checkbox p <= tamanho_checkbox t
   /\ tamanho_subcheckbox p <= tamanho_subcheckbox t)%Z.

(** One drawn row: its number, the baseline of the name, the bottom edge of
    its checkbox, and the baseline of the sub-row when the procedure
    requires a report. *)
Record linha := {
  numero : Z;
  procedimento : string;
  baseline_y : Q;
  checkbox_y_centralizado : Q;
  sub_baseline_y : option Q
}.

(** The drawing loop [for i, procedimento in enumerate(..., 1)]: the rows
    drawn and the value of [y_position] when the loop ends. *)
Fixpoint desenhar_procedimentos (db : gmap string dados) (tm : tamanhos)
    (i : Z) (procs : list string) (y_position : Q) : list linha * Q :=
  match procs with
  | [] => ([], y_position)
  | proc :: resto =>
      let baseline := y_position in
      let cb := baseline + (inject_Z (fonte_numero tm) / 2)
                - (inject_Z (tamanho_checkbox tm) / 2) in
      let y1 := y_position - inject_Z (espaco_procedimento tm) in
      let sub := if procedimento_requer_laudo db proc then Some y1 else None in
      let y2 := if procedimento_requer_laudo db proc
                then y1 - inject_Z (espaco_subitem tm) else y1 in
      let y3 := y2 - inject_Z (espaco_extra tm) in
      let '(linhas, y_fim) := desenhar_procedimentos db tm (i + 1)%Z resto y3 in
      ({| numero := i; procedimento := proc; baseline_y := baseline;
          checkbox_y_centralizado := cb; sub_baseline_y := sub |} :: linhas,
       y_fim)
  end.

(** The sizes chosen and the rows drawn for a page of the given height. *)
Definition corpo_do_checklist (height : Q) (db : gmap string dados)
    (procedimentos_selecionados : list string) : tamanhos * (list linha * Q) :=
  let tm := calcular_tamanhos height
              (calcular_espaco_necessario db procedimentos_selecionados) in
  (tm, desenhar_procedimentos db tm 1%Z procedimentos_selecionados
         (y_inicio height)).

(** [gerar_pdf_checklist], restricted to the body of the page:
    [width, height = A4]. *)
Definition gerar_pdf_checklist (db : gmap string dados)
    (procedimentos_selecionados : list string) : tamanhos * (list linha * Q) :=
  corpo_do_checklist (snd A4) db procedimentos_selecionados.

(** Vertical space the loop has used: from the first baseline down to the
    final [y_position]. *)
Definition altura_consumida (db : gmap string dados)
    (procedimentos_selecionados : list string) : Q :=
  y_inicio (snd A4)
  - snd (snd (gerar_pdf_checklist db procedimentos_selecionados)).

End SistemaClinico.

(** ** The ordering rule of the selection list *)

Module GerenciadorInterface.

(** [_ordenar_procedimentos], on the list [self.procedimentos_selecionados]. *)
Definition _ordenar_procedimentos (sel : list string) : list string :=
  match sel with
  | [] => []
  | _ =>
      let triagem := PyList.contains "Triagem" sel in
      let faturamento := PyList.contains "Faturamento" sel in
      let s1 := if triagem then PyList.remove "Triagem" sel else sel in
      let s2 := if faturamento then PyList.remove "Faturamento" s1 else s1 in
      let s3 := if triagem then "Triagem"%string :: s2 else s2 in
      if faturamento then s3 ++ ["Faturamento"%string] else s3
  end.

(** [_adicionar_procedimento], on the selection list. *)
Definition _adicionar_procedimento (procedimento : string) (sel : list string)
    : list string :=
  if PyList.contains procedimento sel then sel else sel ++ [procedimento].

(** [_remover_procedimento] *)
Definition _remover_procedimento (procedimento : string) (sel : list string)
    : list string :=
  if PyList.contains procedimento sel
  then PyList.remove procedimento sel else sel.

(** The loop shared by [_garantir_procedimentos_obrigatorios] and
    [_adicionar_obrigatorios]: append each mandatory name that is not
    selected yet; the second component collects the names appended. *)
Definition acrescentar_obrigatorios (obrigatorios : list string)
    (sel : list string) : list string * list string :=
  foldl (fun '(sel, adicionados) proc_obrig =>
           if PyList.contains proc_obrig sel
           then (sel, adicionados)
           else (sel ++ [proc_obrig], adicionados ++ [proc_obrig]))
        (sel, []) obrigatorios.

(** [_garantir_procedimentos_obrigatorios] *)
Definition _garantir_procedimentos_obrigatorios (obrigatorios : list string)
    (sel : list string) : list string :=
  _ordenar_procedimentos (fst (acrescentar_obrigatorios obrigatorios sel)).

(** [_adicionar_obrigatorios]: the selection is reordered only when a name
    was appended. *)
Definition _adicionar_obrigatorios (obrigatorios : list string)
    (sel : list string) : list string :=
  let '(sel', adicionados) := acrescentar_obrigatorios obrigatorios sel in
  match adicionados with
  | [] => sel'
  | _ => _ordenar_procedimentos sel'
  end.

(** The fields of the form that the validation and the generation read. *)
Record formulario := {
  nome_field : string;
  cpf_field : string;
  valor_selecionado : string;
  procedimentos_selecionados : list string
}.

(** [TipoExameModerno.value] *)
Definition tipo_exame_value (f : formulario) : string :=
  if bool_decide (valor_selecionado f = EmptyString)
  then "Nenhum selecionado"%string else valor_selecionado f.

(** [field.value.strip()] *)
Definition campo_strip (s : string) : string :=
  PyText.to_string (PyText.strip (PyText.of_string s)).

(** [_validar_dados_avancado]: the verdict and the message shown on a
    refusal. *)
Definition _validar_dados_avancado (sistema : SistemaClinico.t)
    (f : formulario) : bool * string :=
  let nome := campo_strip (nome_field f) in
  let cpf := campo_strip (cpf_field f) in
  let tipo_exame := tipo_exame_value f in
  let '(nome_valido, erro_nome) :=
    ValidadorAvancado.validar_nome_completo nome in
  if negb nome_valido then (false, erro_nome)
  else
    let cpf_limpo :=
      PyText.to_string (PyText.re_sub_nao_digitos (PyText.of_string cpf)) in
    if negb (SistemaClinico.validar_cpf cpf_limpo)
    then (false, "CPF inválido! Verifique os dados."%string)
    else
      let '(proc_valido, erro_proc) :=
        ValidadorAvancado.validar_procedimentos_minimos
          (procedimentos_selecionados f)
          (SistemaClinico.procedimentos_obrigatorios sistema) in
      if negb proc_valido then (false, erro_proc)
      else
        let '(compat_valido, erro_compat) :=
          ValidadorAvancado.validar_compatibilidade_tipo_procedimentos
            tipo_exame (procedimentos_selecionados f) in
        if negb compat_valido then (false, erro_compat)
        else (true, EmptyString).

(** How [_gerar_checklist] ends. *)
Inductive desfecho :=
| Recusado (mensagem : string)
| SemProcedimentos
| ErroPdf
| Gerado (checklist_id : Z) (filename : string).

(** The file name chosen by [gerar_pdf_checklist]; [carimbo] is the
    reading [datetime.now().strftime('%Y%m%d_%H%M%S')]. *)
Definition nome_do_arquivo (nome carimbo : string) : string :=
  ("checklist_"
     +:+ PyText.to_string
           (PyText.replace_char " " "_" (PyText.of_string nome))
     +:+ "_" +:+ carimbo +:+ ".pdf")%string.

(** [_gerar_checklist]: the form, the store and the outcome.  [pdf_ok]
    tells whether [gerar_pdf_checklist] returned rather than raised;
    [now] and [grava] are the clock readings and the fate of the write in
    [adicionar_checklist]. *)
Definition _gerar_checklist (now : GerenciadorHistorico.agora)
    (carimbo : string) (pdf_ok grava : bool)
    (sistema : SistemaClinico.t) (historico : GerenciadorHistorico.t)
    (f : formulario) : formulario * GerenciadorHistorico.t * desfecho :=
  let '(valido, mensagem) := _validar_dados_avancado sistema f in
  if negb valido then (f, historico, Recusado mensagem)
  else
    let nome := campo_strip (nome_field f) in
    let cpf := campo_strip (cpf_field f) in
    let tipo_exame := tipo_exame_value f in
    let sel :=
      _garantir_procedimentos_obrigatorios
        (SistemaClinico.procedimentos_obrigatorios sistema)
        (procedimentos_selecionados f) in
    let f' := {| nome_field := nome_field f; cpf_field := cpf_field f;
                 valor_selecionado := valor_selecionado f;
                 procedimentos_selecionados := sel |} in
    match sel with
    | [] => (f', historico, SemProcedimentos)
    | _ =>
        if pdf_ok
        then
          let filename := nome_do_arquivo nome carimbo in
          let '(checklist_id, historico') :=
            GerenciadorHistorico.adicionar_checklist now grava nome cpf
              tipo_exame sel filename historico in
          (f', historico', Gerado checklist_id filename)
        else (f', historico, ErroPdf)
    end.

(** [_verificar_cpf_no_historico]: the record [ultimo_registro] offered in
    the dialog, if a dialog is opened at all. *)
Definition _verificar_cpf_no_historico (cpf : string)
    (historico : GerenciadorHistorico.t)
    : option GerenciadorHistorico.registro :=
  match GerenciadorHistorico.buscar_por_cpf cpf historico with
  | [] => None
  | ultimo_registro :: _ => Some ultimo_registro
  end.

End GerenciadorInterface.

(** ** The history window *)

Module InterfaceHistorico.

(** [carregar_lista_historico(lista_widget, filtro)]: the records whose
    items are put in the list, in order. *)
Definition carregar_lista_historico (filtro : string)
    (h : GerenciadorHistorico.t) : list GerenciadorHistorico.registro :=
  if negb (bool_decide (filtro = EmptyString))
  then
    if PyText.str_isdigit
         (PyText.remove_char "-"
            (PyText.remove_char "." (PyText.of_string filtro)))
    then GerenciadorHistorico.buscar_por_cpf filtro h
    else GerenciadorHistorico.buscar_por_funcionario filtro h
  else
    foldl (fun registros func =>
             match GerenciadorHistorico.buscar_por_funcionario
                     (GerenciadorHistorico.func_nome func) h with
             | r :: _ => registros ++ [r]
             | [] => registros
             end)
          [] (GerenciadorHistorico.obter_funcionarios_unicos h).

End InterfaceHistorico.

(** * Notions used in the statements, and sample inputs *)

Section NocoesCpf.
Import PyText SistemaClinico.

(** The digits left after stripping, as numbers. *)
Definition digitos (cpf : string) : list Z :=
  map int_of_char (re_sub_nao_digitos (of_string cpf)).

(** The checksum as the specification describes it: a weighted sum, its
    remainder [11 - sum mod 11], and 10 and 11 sent to 0. *)
Definition pesos_primeiro : list Z := [10; 9; 8; 7; 6; 5; 4; 3; 2].
Definition pesos_segundo : list Z := [11; 10; 9; 8; 7; 6; 5; 4; 3; 2].

Definition digito_verificador (pesos ds : list Z) : Z :=
  let soma := foldr Z.add 0 (zip_with Z.mul ds pesos) in
  let resto := 11 - soma mod 11 in
  if bool_decide (resto = 10 \/ resto = 11) then 0 else resto.

(** The two trailing digits agree with the two checksums. *)
Definition verificadores_conferem (ds : list Z) : Prop :=
  ds !! 9%nat = Some (digito_verificador pesos_primeiro (take 9 ds))
  /\ ds !! 10%nat = Some (digito_verificador pesos_segundo (take 10 ds)).

Definition todos_iguais (s : str) : Prop := exists c, s = replicate 11 c.

(** The mask as the specification describes it, digit by digit as the
    digits arrive: each digit in order, a dot before the 4th and before
    the 7th, a hyphen before the 10th, and nothing after the 11th.  [i]
    counts the digits already written. *)
Definition separador (i : nat) : str :=
  if (i =? 3)%nat then ["."%char]
  else if (i =? 6)%nat then ["."%char]
  else if (i =? 9)%nat then ["-"%char]
  else [].

Fixpoint pontuar (i : nat) (d : str) : str :=
  match d with
  | [] => []
  | c :: d' => separador i ++ c :: pontuar (S i) d'
  end.

Definition mascara_progressiva (d : str) : str := pontuar 0 (take 11 d).

End NocoesCpf.

Section NocoesHistorico.
Import GerenciadorHistorico.

(** The ids [n+1, n+2, ..., n+k]. *)
Definition ids_a_partir_de (n k : nat) : list Z :=
  map (fun j => Z.of_nat (n + j)) (seq 1 k).

Definition entrada_exemplo (n : string) (grava : bool) : entrada :=
  {| e_now := {| isoformat := "2024-05-02T10:31:07"; strftime := "02/05/2024 10:31" |};
     e_grava := grava; e_nome := n; e_cpf := "123.456.789-09";
     e_tipo := "Admissional"; e_procs := ["Triagem"; "Faturamento"]%string;
     e_pdf := "checklist.pdf" |}.

End NocoesHistorico.

Section NocoesOrdenar.

(** A procedure other than the two that have a fixed place. *)
Definition comum (p : string) : Prop :=
  p <> "Triagem"%string /\ p <> "Faturamento"%string.

#[global] Instance comum_dec (p : string) : Decision (comum p).
Proof. unfold comum. apply _. Defined.

End NocoesOrdenar.

Section NocoesCatalogo.
Import SistemaClinico.

(** Every mandatory name is a key of the catalog. *)
Definition obrigatorios_no_catalogo (s : t) : Prop :=
  Forall (fun p => is_Some (procedimentos_db s !! p))
         (procedimentos_obrigatorios s).

(** A fresh installation: neither file exists. *)
Definition sem_arquivos : arquivos :=
  {| arq_procedimentos := None; arq_config := None |}.

(** A configuration file that names a mandatory procedure the catalog
    does not hold (it was deleted from the catalog in an earlier run). *)
Definition config_com_ausente : arquivos :=
  {| arq_procedimentos := None;
     arq_config := Some (Some ["Exame Clínico"; "Faturamento"; "Triagem";
                               "Ultrassom"]%string) |}.

(** A catalog read from disk with two entries, only one of which requires
    a report. *)
Definition dois_procedimentos : arquivos :=
  {| arq_procedimentos :=
       Some (Dicionario (<["Audiometria"%string := {| requer_laudo := false |}]>
                        (<["Glicemia"%string := {| requer_laudo := true |}]> ∅)));
     arq_config := None |}.

End NocoesCatalogo.

Section NocoesLayout.
Import SistemaClinico.
Local Open Scope Q_scope.

(** The height of a list when every row costs [a], every sub-row [b] and
    every gap [c]. *)
Fixpoint custo (db : gmap string dados) (a b c : Z) (procs : list string) : Z :=
  match procs with
  | [] => 0
  | proc :: resto =>
      (a + (if procedimento_requer_laudo db proc then b else 0) + c
       + custo db a b c resto)%Z
  end.

(** Fourteen procedures, each of which requires a report. *)
Definition catorze_procedimentos : list string :=
  GerenciadorInterface._ordenar_procedimentos
    (procedimentos_iniciais ++ ["Ultrassom"; "Toxicológico"]%string).

Definition catalogo_com_laudo : gmap string dados :=
  foldl (fun m proc => <[proc := {| requer_laudo := true |}]> m)
        ∅ catorze_procedimentos.

(** The twelve initial procedures, four of which require a report. *)
Definition catalogo_quatro_laudos : gmap string dados :=
  foldl (fun m proc => <[proc := {| requer_laudo := true |}]> m)
        (inserir_todos procedimentos_iniciais ∅)
        ["Audiometria"; "Espirometria"; "Eletrocardiograma";
         "Raio-X Tórax"]%string.

End NocoesLayout.

Section NocoesBusca.
Import GerenciadorHistorico.

(** [a] is at least as recent as [b]: the order of the timestamps as
    strings. *)
Definition nao_mais_antigo (a b : registro) : Prop :=
  String.leb (timestamp b) (timestamp a) = true.

(** The number of stored records under a given name. *)
Definition registros_de (k : string) (l : list registro) : Z :=
  Z.of_nat (length (List.filter (fun r => bool_decide (nome r = k)) l)).

Definition com_total (n : Z) (f : funcionario) : funcionario :=
  {| func_nome := func_nome f; func_cpf := func_cpf f;
     ultimo_tipo_exame := ultimo_tipo_exame f; ultima_data := ultima_data f;
     total_checklists := total_checklists f + n;
     func_timestamp := func_timestamp f |}.

(** What the first loop has established once it has read [vistos]. *)
Definition resumo_correto (vistos : list registro)
    (d : list (string * funcionario)) : Prop :=
  NoDup (map fst d)
  /\ (forall k, k ∈ map fst d <-> exists r, r ∈ vistos /\ nome r = k)
  /\ (forall k f, dict_get k d = Some f ->
        exists r, r ∈ vistos /\ nome r = k /\ f = resumo_de r
                  /\ forall r', r' ∈ vistos -> nome r' = k ->
                                String.leb (timestamp r') (timestamp r) = true).

End NocoesBusca.

Section NocoesCatalogoMais.
Import SistemaClinico.

(** The two files hold what the object holds. *)
Definition persistido (s : t) : Prop :=
  disco s = {| arq_procedimentos := Some (Dicionario (procedimentos_db s));
               arq_config := Some (Some (procedimentos_obrigatorios s)) |}.

End NocoesCatalogoMais.

Section NocoesLayoutMais.
Import SistemaClinico.
Local Open Scope Q_scope.

(** The sizes of the [else] branch. *)
Definition nominais : tamanhos :=
  {| fonte_numero := 14; fonte_procedimento := 12; fonte_subitem := 10;
     espaco_procedimento := 25; espaco_subitem := 20; espaco_extra := 10;
     tamanho_checkbox := 15; tamanho_subcheckbox := 12 |}.

(** A row and everything drawn after it lie at or below [y]. *)
Definition abaixo_de (y : Q) (l : linha) : Prop := baseline_y l <= y.

(** Row [b] is drawn strictly below row [a]. *)
Definition desce (a b : linha) : Prop := baseline_y b < baseline_y a.

End NocoesLayoutMais.

Section NocoesFormulario.
Import GerenciadorInterface.

(** A form filled in for one employee. *)
Definition formulario_exemplo : formulario :=
  {| nome_field := "  Ana Lima ";
     cpf_field := "529.982.247-25";
     valor_selecionado := "Admissional";
     procedimentos_selecionados :=
       ["Exame Clínico"; "Faturamento"; "Glicemia"; "Triagem"]%string |}.

End NocoesFormulario.

(** * Properties *)

(** ** Text primitives *)

Section PyTextFacts.
Import PyText.

Lemma is_09_filter_id (s : str) :
  forallb is_09 s = true -> List.filter is_09 s = s.
Proof.
  induction s as [|c s IH]; simpl; [reflexivity|].
  intros [Hc Hs]%andb_prop. rewrite Hc, IH by assumption. reflexivity.
Qed.

Lemma forallb_re_sub (s : str) : forallb is_09 (re_sub_nao_digitos s) = true.
Proof.
  induction s as [|c s IH]; simpl; [reflexivity|].
  destruct (is_09 c) eqn:Hc; simpl; [rewrite Hc|]; exact IH.
Qed.

Lemma forallb_take (n : nat) (s : str) :
  forallb is_09 s = true -> forallb is_09 (take n s) = true.
Proof.
  revert n; induction s as [|c s IH]; intros [|n]; simpl; try reflexivity.
  intros [Hc Hs]%andb_prop. rewrite Hc; simpl. apply IH, Hs.
Qed.

Lemma forallb_drop (n : nat) (s : str) :
  forallb is_09 s = true -> forallb is_09 (drop n s) = true.
Proof.
  revert n; induction s as [|c s IH]; intros [|n]; simpl; try reflexivity.
  - tauto.
  - intros [Hc Hs]%andb_prop. apply IH, Hs.
Qed.

Lemma of_to_string (l : str) : of_string (to_string l) = l.
Proof. apply list_ascii_of_string_of_list_ascii. Qed.

(** Stripping only ever removes whitespace. *)
Lemma nao_espaco_lstrip (s : str) :
  List.filter (fun c => negb (isspace c)) (lstrip s)
  = List.filter (fun c => negb (isspace c)) s.
Proof.
  induction s as [|c s IH]; simpl; [reflexivity|].
  destruct (isspace c) eqn:Hc; simpl; [exact IH | now rewrite Hc].
Qed.

Lemma filter_rev_comm {A} (f : A -> bool) (l : list A) :
  List.filter f (rev l) = rev (List.filter f l).
Proof.
  induction l as [|x l IH]; simpl; [reflexivity|].
  rewrite List.filter_app, IH; simpl.
  destruct (f x); simpl; [reflexivity | apply app_nil_r].
Qed.

Lemma nao_espaco_strip (s : str) :
  List.filter (fun c => negb (isspace c)) (strip s)
  = List.filter (fun c => negb (isspace c)) s.
Proof.
  unfold strip, rstrip.
  rewrite filter_rev_comm, nao_espaco_lstrip, filter_rev_comm, rev_involutive.
  apply nao_espaco_lstrip.
Qed.

Lemma filter_length_le {A} (f : A -> bool) (l : list A) :
  (length (List.filter f l) <= length l)%nat.
Proof.
  induction l as [|x l IH]; simpl; [lia|]. destruct (f x); simpl; lia.
Qed.

End PyTextFacts.

(** ** The validators *)

Section ValidadorFacts.
Import PyText ValidadorAvancado.

(** C8, as the specification words it, fails: the name [a b] has two
    characters that are not spaces, yet it validates, because the first
    test measures the trimmed name, interior blank included. *)
Lemma validar_nome_completo_a_b :
  (caracteres_nao_espaco "a b" < 3)%nat
  /\ validar_nome_completo "a b" = (true, EmptyString).
Proof. split; [vm_compute; lia | reflexivity]. Qed.

(** C8 (amended): the validator fails when the trimmed name has fewer than
    3 characters, fails when the name has fewer than two whitespace
    separated words, fails when some character is a digit, and succeeds on
    every other name; a name with at least 3 characters that are not
    spaces always passes the first test. *)
Theorem validar_nome_completo_spec (nome : string) :
  let n := of_string nome in
  ((length (strip n) < 3)%nat -> fst (validar_nome_completo nome) = false)
  /\ ((length (split (strip n)) < 2)%nat ->
      fst (validar_nome_completo nome) = false)
  /\ (existsb isdigit n = true -> fst (validar_nome_completo nome) = false)
  /\ ((3 <= length (strip n))%nat -> (2 <= length (split (strip n)))%nat ->
      existsb isdigit n = false ->
      validar_nome_completo nome = (true, EmptyString))
  /\ ((3 <= caracteres_nao_espaco nome)%nat -> (3 <= length (strip n))%nat).
Proof.
  intros n. unfold validar_nome_completo. fold n.
  assert (Hnil : n = [] -> length (strip n) = 0%nat) by (intros ->; reflexivity).
  destruct (bool_decide (n = [])) eqn:Hn.
  - apply bool_decide_eq_true in Hn. specialize (Hnil Hn). simpl.
    repeat split; try reflexivity; try lia.
    unfold caracteres_nao_espaco. fold n. rewrite Hn. simpl. lia.
  - clear Hnil Hn. simpl.
    destruct (Nat.ltb_spec (length (strip n)) 3) as [H3|H3]; simpl.
    + repeat split; try reflexivity; try lia.
      unfold caracteres_nao_espaco. fold n.
      rewrite <- nao_espaco_strip.
      pose proof (filter_length_le (fun c => negb (isspace c)) (strip n)). lia.
    + destruct (Nat.ltb_spec (length (split (strip n))) 2) as [H2|H2]; simpl.
      * repeat split; try reflexivity; try lia.
      * destruct (existsb isdigit n) eqn:Hd; simpl;
          repeat split; try reflexivity; try lia; try discriminate.
Qed.

Lemma validar_nome_completo_spec_witness :
  validar_nome_completo "Ana Lima" = (true, EmptyString)
  /\ fst (validar_nome_completo "Ana") = false
  /\ fst (validar_nome_completo "Ana 2") = false
  /\ fst (validar_nome_completo " a ") = false.
Proof.
  split; [|split; [|split]].
  - destruct (validar_nome_completo_spec "Ana Lima") as (_ & _ & _ & H & _).
    apply H; vm_compute; try lia; reflexivity.
  - destruct (validar_nome_completo_spec "Ana") as (_ & H & _).
    apply H; vm_compute; lia.
  - destruct (validar_nome_completo_spec "Ana 2") as (_ & _ & H & _).
    apply H; vm_compute; reflexivity.
  - destruct (validar_nome_completo_spec " a ") as (H & _).
    apply H; vm_compute; lia.
Defined.

(** C10: an empty selection is refused with the dedicated message whatever
    the mandatory list is, the empty one included, while any selection that
    is not empty passes against an empty mandatory list. *)
Theorem validar_procedimentos_minimos_vazio :
  (forall obrigatorios,
     validar_procedimentos_minimos [] obrigatorios
     = (false, "Selecione pelo menos um procedimento"%string))
  /\ (forall p ps,
        validar_procedimentos_minimos (p :: ps) [] = (true, EmptyString)).
Proof. split; intros; reflexivity. Qed.

End ValidadorFacts.

(** ** The CPF helpers *)

Section CpfFacts.
Import PyText SistemaClinico.

Arguments int_of_char : simpl never.

Lemma resto_de_verificador (soma : Z) :
  resto_de soma
  = (let resto := 11 - soma mod 11 in
     if bool_decide (resto = 10 \/ resto = 11) then 0 else resto).
Proof.
  unfold resto_de; cbv zeta.
  destruct (Z.eqb_spec (11 - soma mod 11) 10) as [E|E];
    [rewrite bool_decide_eq_true_2 by auto; reflexivity|].
  destruct (Z.eqb_spec (11 - soma mod 11) 11) as [E'|E'];
    [rewrite bool_decide_eq_true_2 by auto; reflexivity|].
  rewrite bool_decide_eq_false_2 by tauto. reflexivity.
Qed.

Lemma validar_cpf_comprimento (cpf : string) :
  length (re_sub_nao_digitos (of_string cpf)) <> 11%nat ->
  validar_cpf cpf = false.
Proof.
  intros H. unfold validar_cpf.
  destruct (Nat.eqb_spec (length (re_sub_nao_digitos (of_string cpf))) 11);
    [contradiction | reflexivity].
Qed.

Lemma validar_cpf_todos_iguais (cpf : string) :
  todos_iguais (re_sub_nao_digitos (of_string cpf)) -> validar_cpf cpf = false.
Proof.
  intros [c Hc]. unfold validar_cpf. rewrite Hc.
  change (length (replicate 11 c) =? 11)%nat with true. simpl negb. cbv iota.
  rewrite bool_decide_eq_true_2 by reflexivity. reflexivity.
Qed.

Lemma validar_cpf_onze (cpf : string) :
  length (re_sub_nao_digitos (of_string cpf)) = 11%nat ->
  ~ todos_iguais (re_sub_nao_digitos (of_string cpf)) ->
  validar_cpf cpf = true <-> verificadores_conferem (digitos cpf).
Proof.
  unfold validar_cpf, verificadores_conferem, digitos.
  generalize (re_sub_nao_digitos (of_string cpf)); intros s Hlen Hne.
  rewrite Hlen; simpl negb; cbv iota.
  rewrite bool_decide_eq_false_2 by (intros E; apply Hne; eexists; exact E).
  do 11 (destruct s as [|? s]; [discriminate Hlen|]).
  destruct s; [clear Hlen Hne | discriminate Hlen].
  rewrite !resto_de_verificador. unfold digito_verificador.
  cbn [soma_ponderada seq map foldr char_at nth take zip_with
       pesos_primeiro pesos_segundo lookup list_lookup].
  change (Z.of_nat 0) with 0; change (Z.of_nat 1) with 1;
  change (Z.of_nat 2) with 2; change (Z.of_nat 3) with 3;
  change (Z.of_nat 4) with 4; change (Z.of_nat 5) with 5;
  change (Z.of_nat 6) with 6; change (Z.of_nat 7) with 7;
  change (Z.of_nat 8) with 8; change (Z.of_nat 9) with 9.
  cbv zeta.
  repeat match goal with
         | |- context [(?a - ?b)%Z] =>
             match a with
             | Zpos _ => match b with
                         | Zpos _ => let v := eval cbv in (a - b)%Z in
                                     change (a - b)%Z with v
                         | Z0 => change (a - 0)%Z with a
                         end
             end
         end.
  split.
  - intros H.
    destruct (_ =? int_of_char a8) eqn:E1 in H; [|discriminate H].
    destruct (_ =? int_of_char a9) eqn:E2 in H; [|discriminate H].
    apply Z.eqb_eq in E1, E2. split; f_equal; symmetry; assumption.
  - intros [H1 H2].
    injection H1 as H1; injection H2 as H2.
    rewrite <- H1, <- H2, !Z.eqb_refl. reflexivity.
Qed.

(** C5: [validar_cpf] is false when the stripped input does not have 11
    digits or is one digit repeated 11 times; on the other inputs it is
    true exactly when the two trailing digits equal the two checksums
    (weights 10..2 and 11..2, remainder [11 - sum mod 11], 10 and 11 sent
    to 0).  [12345678909] validates; [11111111111] and every input with
    fewer than 11 digits do not. *)
Theorem validar_cpf_spec :
  (forall cpf, length (re_sub_nao_digitos (of_string cpf)) <> 11%nat ->
               validar_cpf cpf = false)
  /\ (forall cpf, todos_iguais (re_sub_nao_digitos (of_string cpf)) ->
                  validar_cpf cpf = false)
  /\ (forall cpf, length (re_sub_nao_digitos (of_string cpf)) = 11%nat ->
                  ~ todos_iguais (re_sub_nao_digitos (of_string cpf)) ->
                  (validar_cpf cpf = true
                   <-> verificadores_conferem (digitos cpf)))
  /\ validar_cpf "12345678909" = true
  /\ validar_cpf "11111111111" = false
  /\ (forall cpf, (length (re_sub_nao_digitos (of_string cpf)) < 11)%nat ->
                  validar_cpf cpf = false).
Proof.
  split; [exact validar_cpf_comprimento|].
  split; [exact validar_cpf_todos_iguais|].
  split; [exact validar_cpf_onze|].
  split; [reflexivity|]. split; [reflexivity|].
  intros cpf H. apply validar_cpf_comprimento. lia.
Qed.

Lemma validar_cpf_spec_witness :
  validar_cpf "123.456.789" = false
  /\ validar_cpf "222.222.222-22" = false
  /\ validar_cpf "529.982.247-25" = true.
Proof.
  destruct validar_cpf_spec as (H1 & H2 & H3 & _).
  split; [|split].
  - apply H1. vm_compute. discriminate.
  - apply H2. exists "2"%char. reflexivity.
  - apply H3.
    + reflexivity.
    + intros [c Hc]. vm_compute in Hc.
      injection Hc as E1 E2 _. rewrite <- E1 in E2. discriminate E2.
    + split; reflexivity.
Defined.

Lemma mascara_so_digitos (d : str) :
  forallb is_09 d = true -> re_sub_nao_digitos (mascara d) = take 11 d.
Proof.
  intros Hd. unfold mascara, re_sub_nao_digitos, slice, slice_from.
  assert (Ht : forall a b, List.filter is_09 (take a (drop b d)) = take a (drop b d))
    by (intros; apply is_09_filter_id, forallb_take, forallb_drop, Hd).
  assert (Hr : forall b, List.filter is_09 (drop b d) = drop b d)
    by (intros; apply is_09_filter_id, forallb_drop, Hd).
  repeat match goal with
         | |- context [(length d <=? ?k)%nat] =>
             destruct (Nat.leb_spec (length d) k)
         end;
    rewrite ?List.filter_app, ?Ht, ?Hr; simpl List.filter; simpl app.
  - rewrite is_09_filter_id by exact Hd. symmetry; apply take_ge; lia.
  - rewrite (take_ge d 11) by lia. clear - d.
    do 3 (destruct d as [|? d]; [reflexivity|]). reflexivity.
  - rewrite (take_ge d 11) by lia. clear - d.
    do 6 (destruct d as [|? d]; [reflexivity|]). reflexivity.
  - rewrite (take_ge d 11) by lia. clear - d.
    do 9 (destruct d as [|? d]; [reflexivity|]). reflexivity.
  - clear - d.
    do 11 (destruct d as [|? d]; [reflexivity|]). reflexivity.
Qed.

Lemma mascara_take_11 (d : str) : mascara (take 11 d) = mascara d.
Proof.
  do 12 (destruct d as [|? d]; [reflexivity|]). reflexivity.
Qed.

Lemma formatar_cpf_idempotente (cpf : string) :
  formatar_cpf (formatar_cpf cpf) = formatar_cpf cpf.
Proof.
  unfold formatar_cpf. rewrite of_to_string.
  rewrite mascara_so_digitos by apply forallb_re_sub.
  now rewrite mascara_take_11.
Qed.

Lemma mascara_progressiva_ok (d : str) : mascara d = mascara_progressiva d.
Proof.
  unfold mascara_progressiva.
  do 12 (destruct d as [|? d]; [reflexivity|]). reflexivity.
Qed.

Lemma pontuar_app (i : nat) (d1 d2 : str) :
  pontuar i (d1 ++ d2) = pontuar i d1 ++ pontuar (i + length d1) d2.
Proof.
  revert i. induction d1 as [|c d1 IH]; intros i; simpl.
  - now rewrite Nat.add_0_r.
  - rewrite IH, <- app_assoc.
    replace (i + S (length d1))%nat with (S i + length d1)%nat by lia.
    reflexivity.
Qed.

Lemma mascara_progressiva_prefixo (d1 d2 : str) :
  d1 `prefix_of` d2 ->
  mascara_progressiva d1 `prefix_of` mascara_progressiva d2.
Proof.
  intros [k ->]. unfold mascara_progressiva.
  rewrite take_app, pontuar_app. now eexists.
Qed.

(** C6: for every input the result is the mask of the digits left after
    stripping, built digit by digit: the digits in order, a dot before the
    4th and the 7th, a hyphen before the 10th ([123] gives [123], [123456]
    gives [123.456], [123456789] gives [123.456.789], [12345678909] gives
    [123.456.789-09]).  The mask grows with the digits typed: when the
    digits of one input begin the digits of another, its result begins the
    other's result.  Formatting a formatted value changes nothing. *)
Theorem formatar_cpf_spec :
  formatar_cpf "123" = "123"%string
  /\ formatar_cpf "123456" = "123.456"%string
  /\ formatar_cpf "123456789" = "123.456.789"%string
  /\ formatar_cpf "12345678909" = "123.456.789-09"%string
  /\ (forall s, formatar_cpf s
                = to_string (mascara_progressiva
                               (re_sub_nao_digitos (of_string s))))
  /\ (forall s1 s2,
        re_sub_nao_digitos (of_string s1)
          `prefix_of` re_sub_nao_digitos (of_string s2) ->
        of_string (formatar_cpf s1) `prefix_of` of_string (formatar_cpf s2))
  /\ (forall s, formatar_cpf (formatar_cpf s) = formatar_cpf s).
Proof.
  repeat (split; [reflexivity|]).
  split; [intros s; unfold formatar_cpf; now rewrite mascara_progressiva_ok|].
  split; [|exact formatar_cpf_idempotente].
  intros s1 s2 Hp. unfold formatar_cpf.
  rewrite !of_to_string, !mascara_progressiva_ok.
  now apply mascara_progressiva_prefixo.
Qed.

Lemma formatar_cpf_spec_witness :
  formatar_cpf "12.34" = "123.4"%string
  /\ of_string (formatar_cpf "123.4")
       `prefix_of` of_string (formatar_cpf "123.456.789-0").
Proof.
  destruct formatar_cpf_spec as (_ & _ & _ & _ & Hm & Hp & _).
  split.
  - rewrite Hm. reflexivity.
  - apply Hp. exists (of_string "567890"). reflexivity.
Defined.

(** C9: when more than 11 digits are left after stripping, the result is
    the first 11 of them under the full mask; the later digits do not
    reach the output, and nothing is rejected. *)
Theorem formatar_cpf_trunca (cpf : string) :
  (11 < length (re_sub_nao_digitos (of_string cpf)))%nat ->
  (exists a b c d e f g h i j k resto,
      re_sub_nao_digitos (of_string cpf)
      = [a; b; c; d; e; f; g; h; i; j; k] ++ resto
      /\ resto <> []
      /\ formatar_cpf cpf
         = to_string [a; b; c; "."%char; d; e; f; "."%char; g; h; i;
                      "-"%char; j; k])
  /\ formatar_cpf cpf
     = formatar_cpf (to_string (take 11 (re_sub_nao_digitos (of_string cpf)))).
Proof.
  intros Hlen. split.
  - unfold formatar_cpf.
    destruct (re_sub_nao_digitos (of_string cpf))
      as [|a [|b [|c [|d [|e [|f [|g [|h [|i [|j [|k [|l resto]]]]]]]]]]]];
      simpl in Hlen; try lia.
    exists a, b, c, d, e, f, g, h, i, j, k, (l :: resto).
    split; [reflexivity|]. split; [discriminate | reflexivity].
  - unfold formatar_cpf. rewrite of_to_string.
    rewrite (is_09_filter_id (take 11 _))
      by apply forallb_take, forallb_re_sub.
    now rewrite mascara_take_11.
Qed.

Lemma formatar_cpf_trunca_witness :
  formatar_cpf "123.456.789-0912345" = formatar_cpf "12345678909".
Proof.
  destruct (formatar_cpf_trunca "123.456.789-0912345") as [_ H].
  - vm_compute. lia.
  - rewrite H. reflexivity.
Defined.

End CpfFacts.

(** ** The record store *)

Section HistoricoFacts.
Import GerenciadorHistorico.

Lemma salvar_historico_historico (grava : bool) (h : t) :
  historico (snd (salvar_historico grava h)) = historico h.
Proof. destruct grava; reflexivity. Qed.

Lemma adicionar_checklist_novo (now : agora) (grava : bool)
    (n c te : string) (ps : list string) (pdf : string) (h : t) :
  let r := adicionar_checklist now grava n c te ps pdf h in
  fst r = Z.of_nat (length (historico h)) + 1
  /\ exists reg, historico (snd r) = historico h ++ [reg] /\ id reg = fst r.
Proof.
  unfold adicionar_checklist.
  destruct grava; simpl; (split; [reflexivity|]);
    eexists; split; reflexivity.
Qed.

Lemma ids_a_partir_de_S (n k : nat) :
  ids_a_partir_de n (S k) = (Z.of_nat n + 1) :: ids_a_partir_de (S n) k.
Proof.
  unfold ids_a_partir_de. simpl. f_equal; [lia|].
  rewrite <- seq_shift, map_map. apply map_ext. intros j. f_equal. lia.
Qed.

Lemma adicionar_todos_ids (es : list entrada) (h : t) :
  let r := adicionar_todos es h in
  fst r = ids_a_partir_de (length (historico h)) (length es)
  /\ exists regs, historico (snd r) = historico h ++ regs
                  /\ map id regs = fst r.
Proof.
  revert h. induction es as [|e es IH]; intros h; simpl.
  - split; [reflexivity|]. exists []. now rewrite app_nil_r.
  - destruct (adicionar e h) as [i h1] eqn:E1.
    pose proof (adicionar_checklist_novo (e_now e) (e_grava e) (e_nome e)
                  (e_cpf e) (e_tipo e) (e_procs e) (e_pdf e) h) as [Hi [reg [Hh Hr]]].
    fold (adicionar e h) in Hi, Hh, Hr. rewrite E1 in Hi, Hh, Hr. simpl in *.
    specialize (IH h1). destruct (adicionar_todos es h1) as [ids h2].
    simpl in *. destruct IH as [Hids [regs [Hh2 Hregs]]].
    rewrite Hh, length_app in Hids. simpl in Hids.
    replace (length (historico h) + 1)%nat with (S (length (historico h)))
      in Hids by lia.
    split.
    + rewrite ids_a_partir_de_S. now rewrite Hi, Hids.
    + exists (reg :: regs). split.
      * rewrite Hh2, Hh, <- app_assoc. reflexivity.
      * simpl. now rewrite Hr, Hregs.
Qed.

(** C7: on a store of [n] records [adicionar_checklist] gives the new
    record the id [n + 1], appends it and returns that id; [k] submissions
    on the empty store return [1, 2, ..., k], and afterwards every record's
    id is its 1-based position. *)
Theorem adicionar_checklist_ids :
  (forall now grava n c te ps pdf h,
      let r := adicionar_checklist now grava n c te ps pdf h in
      fst r = Z.of_nat (length (historico h)) + 1
      /\ exists reg, historico (snd r) = historico h ++ [reg]
                     /\ id reg = fst r)
  /\ (forall es,
        let r := adicionar_todos es vazio in
        fst r = map Z.of_nat (seq 1 (length es))
        /\ map id (historico (snd r)) = map Z.of_nat (seq 1 (length es))
        /\ forall j reg, historico (snd r) !! j = Some reg ->
                         id reg = Z.of_nat j + 1).
Proof.
  split; [exact adicionar_checklist_novo|].
  intros es r. subst r.
  destruct (adicionar_todos_ids es vazio) as [Hids [regs [Hh Hregs]]].
  simpl in Hh, Hids. change (ids_a_partir_de 0 (length es))
    with (map Z.of_nat (seq 1 (length es))) in Hids.
  rewrite Hh, Hregs, Hids. split; [reflexivity|]. split; [reflexivity|].
  intros j reg Hj.
  assert (Hm : map id regs !! j = Some (id reg))
    by (rewrite list_lookup_fmap, Hj; reflexivity).
  rewrite Hregs, Hids, list_lookup_fmap in Hm.
  destruct (seq 1 (length es) !! j) as [k|] eqn:Hk; [|discriminate Hm].
  apply lookup_seq in Hk as [-> _]. injection Hm as <-. lia.
Qed.

Lemma adicionar_checklist_ids_witness :
  fst (adicionar_todos [entrada_exemplo "Ana Lima" true;
                        entrada_exemplo "Rui Paz" false;
                        entrada_exemplo "Bia Reis" true] vazio) = [1; 2; 3]
  /\ forall reg,
       historico (snd (adicionar_todos [entrada_exemplo "Ana Lima" true;
                                        entrada_exemplo "Rui Paz" false;
                                        entrada_exemplo "Bia Reis" true] vazio))
         !! 2%nat = Some reg -> id reg = 3.
Proof.
  destruct adicionar_checklist_ids as [_ H].
  destruct (H [entrada_exemplo "Ana Lima" true;
               entrada_exemplo "Rui Paz" false;
               entrada_exemplo "Bia Reis" true]) as (H1 & _ & H3).
  split; [exact H1|]. intros reg Hreg. exact (H3 2%nat reg Hreg).
Defined.

End HistoricoFacts.

(** ** The ordering rule *)

Section OrdenarFacts.
Import GerenciadorInterface.

Lemma contains_spec (x : string) (l : list string) :
  PyList.contains x l = true <-> x ∈ l.
Proof. unfold PyList.contains. apply bool_decide_eq_true. Qed.

Lemma remove_perm (x : string) (l : list string) :
  x ∈ l -> l ≡ₚ x :: PyList.remove x l.
Proof.
  induction l as [|y l IH]; [intros H; inversion H|].
  intros H. simpl. destruct (decide (x = y)) as [->|Hne]; [reflexivity|].
  apply elem_of_cons in H as [H|H]; [contradiction|].
  rewrite (IH H) at 1. apply Permutation_swap.
Qed.

Lemma remove_elem_of_ne (x y : string) (l : list string) :
  y ∈ l -> y <> x -> y ∈ PyList.remove x l.
Proof.
  induction l as [|z l IH]; [intros H; inversion H|].
  intros H Hne. simpl. destruct (decide (x = z)) as [->|Hxz].
  - apply elem_of_cons in H as [H|H]; [contradiction | exact H].
  - apply elem_of_cons in H as [->|H]; [left | right; auto].
Qed.

Lemma remove_filter_comum (x : string) (l : list string) :
  ~ comum x -> filter comum (PyList.remove x l) = filter comum l.
Proof.
  intros Hx. induction l as [|y l IH]; [reflexivity|].
  simpl. destruct (decide (x = y)) as [<-|Hne].
  - now rewrite filter_cons_False.
  - rewrite !filter_cons, IH. reflexivity.
Qed.

(** C4: the rule returns a permutation of the selection, with "Triagem"
    at position 0 when it was selected, "Faturamento" at the last position
    when it was selected, and the other procedures in their original
    relative order. *)
Theorem ordenar_procedimentos_spec (sel : list string) :
  sel ≡ₚ _ordenar_procedimentos sel
  /\ ("Triagem"%string ∈ sel ->
      _ordenar_procedimentos sel !! 0%nat = Some "Triagem"%string)
  /\ ("Faturamento"%string ∈ sel ->
      last (_ordenar_procedimentos sel) = Some "Faturamento"%string)
  /\ filter comum (_ordenar_procedimentos sel) = filter comum sel.
Proof.
  assert (HnT : ~ comum "Triagem") by (intros [H _]; now apply H).
  assert (HnF : ~ comum "Faturamento") by (intros [_ H]; now apply H).
  destruct sel as [|p0 sel0].
  { repeat split; try reflexivity; intros H; inversion H. }
  cbv beta iota zeta delta [_ordenar_procedimentos].
  generalize (p0 :: sel0). clear p0 sel0. intros sel.
  destruct (PyList.contains "Triagem" sel) eqn:Ht;
    destruct (PyList.contains "Faturamento" sel) eqn:Hf; cbv iota.
  - apply contains_spec in Ht, Hf.
    assert (Hf1 : "Faturamento"%string ∈ PyList.remove "Triagem" sel)
      by (apply remove_elem_of_ne; [exact Hf | discriminate]).
    split; [|split; [|split]].
    + rewrite (remove_perm _ _ Ht) at 1.
      rewrite (remove_perm _ _ Hf1) at 1.
      rewrite <- Permutation_cons_append. apply Permutation_swap.
    + reflexivity.
    + intros _. apply last_snoc.
    + rewrite filter_app, (filter_cons_False _ _ [] HnF), filter_nil, app_nil_r.
      rewrite filter_cons_False by exact HnT.
      now rewrite !remove_filter_comum.
  - apply contains_spec in Ht.
    assert (Hf' : "Faturamento"%string ∉ sel)
      by (intros H; apply contains_spec in H; congruence).
    split; [|split; [|split]].
    + apply remove_perm, Ht.
    + reflexivity.
    + intros H; contradiction.
    + rewrite filter_cons_False by exact HnT. now rewrite remove_filter_comum.
  - apply contains_spec in Hf.
    assert (Ht' : "Triagem"%string ∉ sel)
      by (intros H; apply contains_spec in H; congruence).
    split; [|split; [|split]].
    + rewrite (remove_perm _ _ Hf) at 1. apply Permutation_cons_append.
    + intros H; contradiction.
    + intros _. apply last_snoc.
    + rewrite filter_app, filter_cons_False, filter_nil, app_nil_r by exact HnF.
      now rewrite remove_filter_comum.
  - assert (Ht' : "Triagem"%string ∉ sel)
      by (intros H; apply contains_spec in H; congruence).
    assert (Hf' : "Faturamento"%string ∉ sel)
      by (intros H; apply contains_spec in H; congruence).
    repeat split; try reflexivity; intros H; contradiction.
Qed.

Lemma ordenar_procedimentos_spec_witness :
  _ordenar_procedimentos
    ["Glicemia"; "Faturamento"; "Audiometria"; "Triagem"; "Exame Clínico"]%string
    !! 0%nat = Some "Triagem"%string
  /\ last (_ordenar_procedimentos
       ["Glicemia"; "Faturamento"; "Audiometria"; "Triagem"; "Exame Clínico"]%string)
     = Some "Faturamento"%string.
Proof.
  destruct (ordenar_procedimentos_spec
    ["Glicemia"; "Faturamento"; "Audiometria"; "Triagem"; "Exame Clínico"]%string)
    as (_ & HT & HF & _).
  split; [apply HT | apply HF]; apply list_elem_of_In; simpl; auto 10.
Defined.

End OrdenarFacts.

(** ** The catalog and the mandatory list *)

Section CatalogoFacts.
Import SistemaClinico.

Lemma index_lookup (x : string) (l : list string) (i : nat) :
  PyList.index x l = Some i -> l !! i = Some x.
Proof.
  revert i. induction l as [|y l IH]; intros i; simpl; [discriminate|].
  destruct (decide (x = y)) as [->|Hne].
  - intros [= <-]. reflexivity.
  - destruct (PyList.index x l) as [k|]; simpl; [|discriminate].
    intros [= <-]. simpl. now apply IH.
Qed.

Lemma index_elem_of (x : string) (l : list string) :
  x ∈ l -> is_Some (PyList.index x l).
Proof.
  induction l as [|y l IH]; [intros H; inversion H|].
  intros H. simpl. destruct (decide (x = y)); [eauto|].
  apply elem_of_cons in H as [H|H]; [contradiction|].
  destruct (IH H) as [k ->]. simpl. eauto.
Qed.

Lemma remove_subseteq (x p : string) (l : list string) :
  p ∈ PyList.remove x l -> p ∈ l.
Proof.
  induction l as [|y l IH]; simpl; [trivial|].
  destruct (decide (x = y)); [now right|].
  intros [->|H]%elem_of_cons; [left | right; auto].
Qed.

Lemma completar_obrigatorios_geral (nomes ob : list string) (p : string) :
  p ∈ foldl (fun l obrig => if PyList.contains obrig l then l else l ++ [obrig])
            ob nomes
  <-> p ∈ ob \/ p ∈ nomes.
Proof.
  revert ob. induction nomes as [|k nomes IH]; intros ob; simpl.
  - rewrite elem_of_nil. tauto.
  - rewrite IH, elem_of_cons. unfold PyList.contains.
    case_bool_decide as Hk.
    + split; [tauto|]. intros [H|[->|H]]; auto.
    + rewrite elem_of_app, list_elem_of_singleton. tauto.
Qed.

Lemma completar_obrigatorios_elem_of (ob : list string) (p : string) :
  p ∈ completar_obrigatorios ob <-> p ∈ ob \/ p ∈ obrigatorios_padrao.
Proof. apply completar_obrigatorios_geral. Qed.

Lemma completar_db_geral (nomes : list string) (db : gmap string dados)
    (p : string) :
  is_Some (foldl (fun m obrig =>
                    match m !! obrig with
                    | Some _ => m
                    | None => <[obrig := {| requer_laudo := false |}]> m
                    end) db nomes !! p)
  <-> is_Some (db !! p) \/ p ∈ nomes.
Proof.
  revert db. induction nomes as [|k nomes IH]; intros db; simpl.
  - rewrite elem_of_nil. tauto.
  - rewrite IH, elem_of_cons. destruct (db !! k) as [d|] eqn:Hk.
    + split; [tauto|]. intros [H|[->|H]]; eauto.
    + rewrite lookup_insert_is_Some'. split.
      * intros [[->|H]|H]; auto.
      * intros [H|[->|H]]; auto.
Qed.

Lemma completar_db_lookup (db : gmap string dados) (p : string) :
  is_Some (completar_db db !! p)
  <-> is_Some (db !! p) \/ p ∈ obrigatorios_padrao.
Proof. apply completar_db_geral. Qed.

(** Startup puts the three baseline names in the list and in the catalog,
    whatever the files hold. *)
Lemma init_padrao (d : arquivos) :
  Forall (fun p => p ∈ procedimentos_obrigatorios (init d)
                   /\ is_Some (procedimentos_db (init d) !! p))
         obrigatorios_padrao.
Proof.
  apply Forall_forall. intros p Hp. simpl. split.
  - apply completar_obrigatorios_elem_of. now right.
  - apply completar_db_lookup. now right.
Qed.

Lemma garantir_preserva (s : t) :
  obrigatorios_no_catalogo s ->
  obrigatorios_no_catalogo (_garantir_procedimentos_obrigatorios_completos s).
Proof.
  unfold obrigatorios_no_catalogo. rewrite !Forall_forall. simpl.
  intros H p [Hp|Hp]%completar_obrigatorios_elem_of;
    apply completar_db_lookup; auto.
Qed.

Lemma adicionar_preserva (p : string) (s : t) :
  obrigatorios_no_catalogo s ->
  obrigatorios_no_catalogo (snd (adicionar_procedimento p s)).
Proof.
  unfold obrigatorios_no_catalogo, adicionar_procedimento.
  destruct (_ && _); simpl; [|trivial].
  rewrite !Forall_forall. intros H q Hq.
  apply lookup_insert_is_Some'. right. auto.
Qed.

Lemma remover_preserva (p : string) (s : t) :
  obrigatorios_no_catalogo s -> p ∉ procedimentos_obrigatorios s ->
  obrigatorios_no_catalogo (snd (remover_procedimento_db p s)).
Proof.
  unfold obrigatorios_no_catalogo, remover_procedimento_db.
  case_bool_decide; simpl; [|trivial].
  rewrite !Forall_forall. intros Hinv Hp q Hq.
  apply lookup_delete_is_Some. split; [|auto]. intros ->. contradiction.
Qed.

Lemma alternar_preserva (p : string) (s : t) :
  obrigatorios_no_catalogo s ->
  p ∈ procedimentos_obrigatorios s \/ is_Some (procedimentos_db s !! p) ->
  obrigatorios_no_catalogo (snd (alternar_obrigatorio p s)).
Proof.
  unfold obrigatorios_no_catalogo, alternar_obrigatorio, PyList.contains.
  simpl. rewrite !Forall_forall. intros H Hp q.
  case_bool_decide as Hin.
  - intros Hq%remove_subseteq. auto.
  - intros [Hq|Hq]%elem_of_app; [auto|].
    apply list_elem_of_singleton in Hq as ->. destruct Hp; [contradiction|auto].
Qed.

Lemma editar_preserva (antigo novo : string) (s : t) :
  obrigatorios_no_catalogo s -> NoDup (procedimentos_obrigatorios s) ->
  obrigatorios_no_catalogo (snd (editar_procedimento_db antigo novo s)).
Proof.
  unfold obrigatorios_no_catalogo, editar_procedimento_db, PyList.contains.
  intros H Hnd.
  destruct (procedimentos_db s !! antigo) as [d|] eqn:Hd; [|exact H].
  case_bool_decide; [exact H|]. simpl.
  rewrite Forall_forall in H. apply Forall_forall. intros q Hq.
  assert (Hcase : q = novo \/ (q ∈ procedimentos_obrigatorios s /\ q <> antigo)).
  { case_bool_decide as Hin.
    - destruct (index_elem_of _ _ Hin) as [i Hi]. rewrite Hi in Hq.
      apply index_lookup in Hi.
      apply list_elem_of_lookup in Hq as [j Hj].
      destruct (decide (i = j)) as [->|Hij].
      + rewrite list_lookup_insert_eq in Hj by (eapply lookup_lt_Some; eauto).
        left. congruence.
      + rewrite list_lookup_insert_ne in Hj by exact Hij.
        right. split; [eapply list_elem_of_lookup_2; eauto|].
        intros ->. apply Hij. eapply NoDup_lookup; eauto.
    - right. split; [exact Hq|]. intros ->. contradiction. }
  apply lookup_insert_is_Some'.
  destruct Hcase as [->|[Hq1 Hq2]]; [now left|]. right.
  apply lookup_delete_is_Some. split; [congruence | auto].
Qed.

(** C3, as stated, fails at startup, at a removal and at a toggle: the
    reconciliation only looks at the three baseline names, a removal leaves
    the mandatory list alone, and a toggle does not consult the catalog. *)
Lemma obrigatorios_no_catalogo_falha :
  ~ obrigatorios_no_catalogo (init config_com_ausente)
  /\ (obrigatorios_no_catalogo (init sem_arquivos)
      /\ ~ obrigatorios_no_catalogo
            (snd (remover_procedimento_db "Triagem" (init sem_arquivos))))
  /\ ~ obrigatorios_no_catalogo
        (snd (alternar_obrigatorio "Ultrassom" (init sem_arquivos))).
Proof.
  unfold obrigatorios_no_catalogo. repeat split; compute_done.
Qed.

(** C3 (amended): startup puts the three baseline names in the mandatory
    list and in the catalog, and on a fresh installation every mandatory
    name is a catalog key.  That property is kept by the reconciliation, by
    [adicionar_procedimento], by [remover_procedimento_db] of a name that
    is not mandatory, by [alternar_obrigatorio] of a name that is mandatory
    or in the catalog, and by [editar_procedimento_db] when the mandatory
    list has no repeated name. *)
Theorem obrigatorios_no_catalogo_preservado :
  (forall d, Forall (fun p => p ∈ procedimentos_obrigatorios (init d)
                              /\ is_Some (procedimentos_db (init d) !! p))
                    obrigatorios_padrao)
  /\ obrigatorios_no_catalogo (init sem_arquivos)
  /\ (forall d, obrigatorios_no_catalogo (carregar_dados d) ->
                obrigatorios_no_catalogo (init d))
  /\ (forall p s, obrigatorios_no_catalogo s ->
                  obrigatorios_no_catalogo (snd (adicionar_procedimento p s)))
  /\ (forall p s, obrigatorios_no_catalogo s ->
                  p ∉ procedimentos_obrigatorios s ->
                  obrigatorios_no_catalogo (snd (remover_procedimento_db p s)))
  /\ (forall p s, obrigatorios_no_catalogo s ->
                  p ∈ procedimentos_obrigatorios s
                  \/ is_Some (procedimentos_db s !! p) ->
                  obrigatorios_no_catalogo (snd (alternar_obrigatorio p s)))
  /\ (forall antigo novo s,
        obrigatorios_no_catalogo s -> NoDup (procedimentos_obrigatorios s) ->
        obrigatorios_no_catalogo (snd (editar_procedimento_db antigo novo s))).
Proof.
  split; [exact init_padrao|].
  split; [unfold obrigatorios_no_catalogo; compute_done|].
  split; [intros d; apply garantir_preserva|].
  split; [intros p s; apply adicionar_preserva|].
  split; [intros p s; apply remover_preserva|].
  split; [intros p s; apply alternar_preserva|].
  intros antigo novo s; apply editar_preserva.
Qed.

Lemma obrigatorios_no_catalogo_preservado_witness :
  obrigatorios_no_catalogo
    (snd (remover_procedimento_db "Glicemia" (init sem_arquivos)))
  /\ obrigatorios_no_catalogo
       (snd (alternar_obrigatorio "Glicemia" (init sem_arquivos)))
  /\ obrigatorios_no_catalogo
       (snd (editar_procedimento_db "Triagem" "Acolhimento" (init sem_arquivos))).
Proof.
  destruct obrigatorios_no_catalogo_preservado
    as (_ & H0 & _ & _ & Hrem & Halt & Hed).
  split; [|split].
  - apply Hrem; [exact H0 | compute_done].
  - apply Halt; [exact H0 | right; compute_done].
  - apply Hed; [exact H0 | compute_done].
Defined.

(** What [editar_procedimento_db] does in each case: it refuses when the
    old name is not a key or the new name is empty; otherwise it answers
    [True], the payload of the old key is stored under the new key, the old
    key is gone (unless both names are the same), and the first occurrence
    of the old name in the mandatory list is overwritten in place. *)
Lemma editar_procedimento_db_casos (antigo novo : string) (s : t) :
  (procedimentos_db s !! antigo = None \/ novo = EmptyString ->
   editar_procedimento_db antigo novo s = (false, s))
  /\ (forall d, procedimentos_db s !! antigo = Some d -> novo <> EmptyString ->
        let r := editar_procedimento_db antigo novo s in
        fst r = true
        /\ procedimentos_db (snd r)
           = <[novo := d]> (delete antigo (procedimentos_db s))
        /\ (antigo ∉ procedimentos_obrigatorios s ->
            procedimentos_obrigatorios (snd r) = procedimentos_obrigatorios s)
        /\ (forall i, PyList.index antigo (procedimentos_obrigatorios s) = Some i ->
            procedimentos_obrigatorios (snd r)
            = <[i := novo]> (procedimentos_obrigatorios s))).
Proof.
  unfold editar_procedimento_db, PyList.contains. split.
  - intros [H| ->]; [now rewrite H|].
    destruct (procedimentos_db s !! antigo); reflexivity.
  - intros d Hd Hn. rewrite Hd. rewrite bool_decide_eq_false_2 by exact Hn.
    simpl. split; [reflexivity|]. split; [reflexivity|]. split.
    + intros Hout. now rewrite bool_decide_eq_false_2 by exact Hout.
    + intros i Hi. rewrite Hi.
      rewrite bool_decide_eq_true_2; [reflexivity|].
      eapply list_elem_of_lookup_2, index_lookup, Hi.
Qed.

(** C2, at the input where the code departs from it: both names are keys
    and differ, yet the rename answers [True], the old key disappears and
    the entry that was under the new name is overwritten. *)
Theorem editar_procedimento_db_alvo_existente :
  let s := init dois_procedimentos in
  let r := editar_procedimento_db "Audiometria" "Glicemia" s in
  procedimentos_db s !! "Audiometria"%string = Some {| requer_laudo := false |}
  /\ procedimentos_db s !! "Glicemia"%string = Some {| requer_laudo := true |}
  /\ fst r = true
  /\ procedimentos_db (snd r) !! "Audiometria"%string = None
  /\ procedimentos_db (snd r) !! "Glicemia"%string
     = Some {| requer_laudo := false |}
  /\ size (procedimentos_db s) = 5%nat
  /\ size (procedimentos_db (snd r)) = 4%nat.
Proof. vm_compute. repeat split. Qed.

End CatalogoFacts.

(** ** The adaptive sizing of the page body *)

Section LayoutFacts.
Import SistemaClinico.
Local Open Scope Q_scope.

Lemma calcular_espaco_necessario_custo db procs :
  calcular_espaco_necessario db procs = custo db 25 20 10 procs.
Proof.
  unfold calcular_espaco_necessario.
  assert (H : forall acc,
    foldl (fun espaco_total proc =>
             let e1 := (espaco_total + 25)%Z in
             let e2 := if procedimento_requer_laudo db proc
                       then (e1 + 20)%Z else e1 in
             (e2 + 10)%Z) acc procs
    = (acc + custo db 25 20 10 procs)%Z).
  { induction procs as [|p procs IH]; intros acc; simpl; [lia|].
    rewrite IH. destruct (procedimento_requer_laudo db p); lia. }
  apply H.
Qed.

Lemma custo_nao_vazio db procs :
  procs <> [] -> (35 <= custo db 25 20 10 procs)%Z.
Proof.
  assert (H0 : forall l, (0 <= custo db 25 20 10 l)%Z).
  { induction l as [|p l IH]; simpl; [lia|].
    destruct (procedimento_requer_laudo db p); lia. }
  destruct procs as [|p procs]; [congruence|]. intros _. simpl.
  specialize (H0 procs). destruct (procedimento_requer_laudo db p); lia.
Qed.

Lemma desenhar_procedimentos_y db tm i procs y :
  snd (desenhar_procedimentos db tm i procs y)
  == y - inject_Z (custo db (espaco_procedimento tm) (espaco_subitem tm)
                         (espaco_extra tm) procs).
Proof.
  revert i y. induction procs as [|p procs IH]; intros i y; simpl.
  - change (inject_Z 0) with 0. ring.
  - specialize (IH (i + 1)%Z).
    destruct (procedimento_requer_laudo db p);
      match goal with
      | |- context [desenhar_procedimentos db tm (i + 1)%Z procs ?y'] =>
          specialize (IH y');
          destruct (desenhar_procedimentos db tm (i + 1)%Z procs y')
      end; simpl in *; rewrite IH, !inject_Z_plus; try change (inject_Z 0) with 0; ring.
Qed.

Lemma desenhar_procedimentos_length db tm i procs y :
  length (fst (desenhar_procedimentos db tm i procs y)) = length procs.
Proof.
  revert i y. induction procs as [|p procs IH]; intros i y; simpl; [reflexivity|].
  match goal with
  | |- context [desenhar_procedimentos db tm (i + 1)%Z procs ?y'] =>
      specialize (IH (i + 1)%Z y');
      destruct (desenhar_procedimentos db tm (i + 1)%Z procs y')
  end. simpl in *. now rewrite IH.
Qed.

Lemma py_int_floor (x : Q) : 0 <= x -> py_int x = Qfloor x.
Proof.
  destruct x as [n d]. unfold Qle, py_int. simpl. intros H.
  apply Z.quot_div_nonneg; lia.
Qed.

Lemma py_int_le (x : Q) : 0 <= x -> inject_Z (py_int x) <= x.
Proof. intros H. rewrite py_int_floor by exact H. apply Qfloor_le. Qed.

Lemma py_int_ge (z : Z) (x : Q) :
  inject_Z z <= x -> 0 <= x -> (z <= py_int x)%Z.
Proof.
  intros Hz Hx. rewrite py_int_floor by exact Hx.
  rewrite <- (Qfloor_Z z). now apply Qfloor_resp_le.
Qed.

Lemma custo_escala db (f : Q) (a b c : Z) procs :
  0 <= f ->
  inject_Z a <= 25 * f -> inject_Z b <= 20 * f -> inject_Z c <= 10 * f ->
  inject_Z (custo db a b c procs) <= f * inject_Z (custo db 25 20 10 procs).
Proof.
  intros Hf Ha Hb Hc. induction procs as [|p procs IH]; simpl.
  - change (inject_Z 0) with 0. lra.
  - rewrite !inject_Z_plus.
    destruct (procedimento_requer_laudo db p);
      change (inject_Z 25) with 25; change (inject_Z 10) with 10;
      change (inject_Z 20) with 20; change (inject_Z 0) with 0; lra.
Qed.

Lemma pisos_sempre (height : Q) (nec : Z) :
  acima_de pisos (calcular_tamanhos height nec).
Proof.
  unfold acima_de, calcular_tamanhos.
  destruct (negb _); simpl; repeat split; lia.
Qed.

Lemma calcular_tamanhos_escala (height : Q) (nec : Z) :
  espaco_disponivel height < inject_Z nec ->
  calcular_tamanhos height nec
  = (let f := fator_escala height nec in
     {| fonte_numero := Z.max 10 (py_int (14 * f));
        fonte_procedimento := Z.max 9 (py_int (12 * f));
        fonte_subitem := Z.max 8 (py_int (10 * f));
        espaco_procedimento := Z.max 18 (py_int (25 * f));
        espaco_subitem := Z.max 15 (py_int (20 * f));
        espaco_extra := Z.max 5 (py_int (10 * f));
        tamanho_checkbox := Z.max 12 (py_int (15 * f));
        tamanho_subcheckbox := Z.max 10 (py_int (12 * f)) |}).
Proof.
  intros Hlt. unfold calcular_tamanhos.
  destruct (Qle_bool (inject_Z nec) (espaco_disponivel height)) eqn:E;
    [|reflexivity].
  apply Qle_bool_iff in E. lra.
Qed.

(** C1, as stated, fails: for fourteen procedures that all require a
    report the nominal height 770 exceeds the 62470/127 points available,
    the row spacings stop at their floors, the rows use 546 points, and the
    last sub-row is drawn below the footer margin. *)
Lemma gerar_pdf_checklist_nao_cabe :
  catorze_procedimentos <> []
  /\ espaco_disponivel (snd A4)
     < inject_Z (calcular_espaco_necessario catalogo_com_laudo
                                            catorze_procedimentos)
  /\ acima_de pisos (fst (gerar_pdf_checklist catalogo_com_laudo
                                              catorze_procedimentos))
  /\ ~ altura_consumida catalogo_com_laudo catorze_procedimentos
       <= espaco_disponivel (snd A4)
  /\ exists l y,
       last (fst (snd (gerar_pdf_checklist catalogo_com_laudo
                                           catorze_procedimentos))) = Some l
       /\ sub_baseline_y l = Some y /\ y < y_final.
Proof.
  split; [discriminate|].
  split; [vm_compute; reflexivity|].
  split; [apply pisos_sempre|].
  split; [apply Qlt_not_le; vm_compute; reflexivity|].
  eexists; eexists. split; [vm_compute; reflexivity|].
  split; [reflexivity | vm_compute; reflexivity].
Qed.

(** C1 (amended): when the nominal height exceeds the available space,
    every computed font size, checkbox size and row spacing is at least
    its floor; the height the rows use is the sum of the computed
    spacings; and that height is at most the available space whenever the
    scale factor is at least 3/4, which is when no row spacing is held up
    by its floor. *)
Theorem gerar_pdf_checklist_tamanhos db procs :
  let nec := calcular_espaco_necessario db procs in
  let disp := espaco_disponivel (snd A4) in
  let tm := fst (gerar_pdf_checklist db procs) in
  procs <> [] -> disp < inject_Z nec ->
  acima_de pisos tm
  /\ altura_consumida db procs
     == inject_Z (custo db (espaco_procedimento tm) (espaco_subitem tm)
                        (espaco_extra tm) procs)
  /\ (3 # 4 <= fator_escala (snd A4) nec ->
      altura_consumida db procs <= disp).
Proof.
  intros nec disp tm Hne Hlt.
  split; [apply pisos_sempre|].
  assert (Hy : altura_consumida db procs
               == inject_Z (custo db (espaco_procedimento tm)
                                  (espaco_subitem tm) (espaco_extra tm) procs)).
  { unfold tm, altura_consumida, gerar_pdf_checklist, corpo_do_checklist.
    cbn [fst snd]. rewrite desenhar_procedimentos_y. ring. }
  split; [exact Hy|]. intros Hf. rewrite Hy.
  assert (Hnec : 35 <= inject_Z nec).
  { unfold nec. rewrite calcular_espaco_necessario_custo.
    change 35 with (inject_Z 35). rewrite <- Zle_Qle.
    now apply custo_nao_vazio. }
  assert (Hprod : fator_escala (snd A4) nec * inject_Z nec == disp).
  { unfold fator_escala. fold disp. field. lra. }
  set (f := fator_escala (snd A4) nec) in *.
  assert (Htm : tm = {| fonte_numero := Z.max 10 (py_int (14 * f));
                        fonte_procedimento := Z.max 9 (py_int (12 * f));
                        fonte_subitem := Z.max 8 (py_int (10 * f));
                        espaco_procedimento := Z.max 18 (py_int (25 * f));
                        espaco_subitem := Z.max 15 (py_int (20 * f));
                        espaco_extra := Z.max 5 (py_int (10 * f));
                        tamanho_checkbox := Z.max 12 (py_int (15 * f));
                        tamanho_subcheckbox := Z.max 10 (py_int (12 * f)) |}).
  { unfold tm, gerar_pdf_checklist, corpo_do_checklist. cbn [fst].
    apply calcular_tamanhos_escala, Hlt. }
  rewrite Htm. simpl espaco_procedimento. simpl espaco_subitem.
  simpl espaco_extra.
  rewrite (Z.max_r 18), (Z.max_r 15), (Z.max_r 5)
    by (apply py_int_ge; change (inject_Z ?z) with (z # 1); lra).
  rewrite <- Hprod. unfold nec at 1. rewrite calcular_espaco_necessario_custo.
  apply custo_escala; try (apply py_int_le); lra.
Qed.

Lemma gerar_pdf_checklist_tamanhos_witness :
  acima_de pisos
    (fst (gerar_pdf_checklist catalogo_quatro_laudos procedimentos_iniciais))
  /\ altura_consumida catalogo_quatro_laudos procedimentos_iniciais
     <= espaco_disponivel (snd A4).
Proof.
  destruct (gerar_pdf_checklist_tamanhos catalogo_quatro_laudos
              procedimentos_iniciais) as (H1 & _ & H3).
  - discriminate.
  - vm_compute. reflexivity.
  - split; [exact H1|]. apply H3. vm_compute. discriminate.
Defined.

End LayoutFacts.

(** * Further properties of the code *)

(** ** The validators on their other paths *)

Section ValidadorMais.
Import PyText ValidadorAvancado.

Lemma filter_nil_iff {A} (f : A -> bool) (l : list A) :
  List.filter f l = [] <-> forall x, x ∈ l -> f x = false.
Proof.
  induction l as [|y l IH]; simpl.
  - split; [intros _ x Hx; inversion Hx | reflexivity].
  - destruct (f y) eqn:Hy.
    + split; [discriminate|]. intros H. rewrite H in Hy by left. discriminate.
    + rewrite IH. split.
      * intros H x [->|Hx]%elem_of_cons; auto.
      * intros H x Hx. apply H. now right.
Qed.

(** X1: a selection passes [validar_procedimentos_minimos] exactly when it
    is not empty and holds every mandatory name; when a mandatory name is
    missing the answer is [False] whatever else is selected. *)
Theorem validar_procedimentos_minimos_completo
    (procedimentos obrigatorios : list string) :
  fst (validar_procedimentos_minimos procedimentos obrigatorios) = true
  <-> procedimentos <> [] /\ forall p, p ∈ obrigatorios -> p ∈ procedimentos.
Proof.
  unfold validar_procedimentos_minimos.
  destruct procedimentos as [|q qs]; [simpl; split; [discriminate | tauto]|].
  destruct (List.filter _ obrigatorios) as [|m ms] eqn:E; simpl.
  - split; [|reflexivity]. intros _. split; [discriminate|].
    intros p Hp. apply (proj1 (filter_nil_iff _ _) E) in Hp.
    apply negb_false_iff, bool_decide_eq_true in Hp. exact Hp.
  - split; [discriminate|]. intros [_ H]. exfalso.
    assert (Hnil : List.filter
              (fun proc => negb (bool_decide (proc ∈ q :: qs))) obrigatorios
            = []).
    { apply filter_nil_iff. intros x Hx.
      apply negb_false_iff, bool_decide_eq_true. auto. }
    rewrite Hnil in E. discriminate.
Qed.

(** X2: [validar_compatibilidade_tipo_procedimentos] refuses exactly the
    selections of a "demissional" exam, in any letter case, that hold
    "Raio-X Tórax" or "Espirometria"; every other exam type accepts every
    selection. *)
Theorem validar_compatibilidade_tipo_procedimentos_spec
    (tipo_exame : string) (procedimentos : list string) :
  fst (validar_compatibilidade_tipo_procedimentos tipo_exame procedimentos)
  = false
  <-> to_string (lower (of_string tipo_exame)) = "demissional"%string
      /\ ("Raio-X Tórax"%string ∈ procedimentos
          \/ "Espirometria"%string ∈ procedimentos).
Proof.
  unfold validar_compatibilidade_tipo_procedimentos.
  case_bool_decide as Ht; [|simpl; split; [discriminate | tauto]].
  destruct (List.filter _ procedimentos) as [|m ms] eqn:E; simpl.
  - split; [discriminate|]. intros [_ H]. exfalso.
    pose proof (proj1 (filter_nil_iff _ _) E) as Hnone.
    destruct H as [H|H]; apply Hnone in H;
      apply bool_decide_eq_false in H; apply H;
      unfold proibidos_demissional; set_solver.
  - split; [|reflexivity]. intros _. split; [exact Ht|].
    assert (Hm : m ∈ List.filter
              (fun p => bool_decide (p ∈ proibidos_demissional)) procedimentos)
      by (rewrite E; left).
    apply list_elem_of_In, List.filter_In in Hm as [Hin Hp].
    apply list_elem_of_In in Hin. apply bool_decide_eq_true in Hp.
    unfold proibidos_demissional in Hp.
    apply elem_of_cons in Hp as [->|Hp]; [now left|].
    apply list_elem_of_singleton in Hp as ->. now right.
Qed.

Lemma validar_compatibilidade_tipo_procedimentos_spec_witness :
  fst (validar_compatibilidade_tipo_procedimentos "DEMISSIONAL"
         ["Triagem"; "Espirometria"; "Faturamento"]%string) = false
  /\ fst (validar_compatibilidade_tipo_procedimentos "Admissional"
         ["Triagem"; "Espirometria"; "Faturamento"]%string) = true.
Proof.
  split.
  - apply validar_compatibilidade_tipo_procedimentos_spec.
    split; [reflexivity|]. right. apply list_elem_of_In. simpl. auto.
  - destruct (fst (validar_compatibilidade_tipo_procedimentos "Admissional"
         ["Triagem"; "Espirometria"; "Faturamento"]%string)) eqn:E;
      [reflexivity|].
    apply validar_compatibilidade_tipo_procedimentos_spec in E as [E _].
    vm_compute in E. discriminate E.
Defined.

Lemma validar_procedimentos_minimos_completo_witness :
  fst (validar_procedimentos_minimos
         ["Triagem"; "Glicemia"; "Exame Clínico"; "Faturamento"]%string
         ["Exame Clínico"; "Faturamento"; "Triagem"]%string) = true.
Proof.
  apply validar_procedimentos_minimos_completo. split; [discriminate|].
  intros p Hp. apply list_elem_of_In in Hp. apply list_elem_of_In.
  simpl in *. intuition.
Defined.

End ValidadorMais.

(** ** Searching the record store *)

Section BuscaFacts.
Import PyText GerenciadorHistorico.

Lemma string_leb_refl (s : string) : String.leb s s = true.
Proof. destruct (String.leb_total s s); assumption. Qed.

Lemma string_leb_trans (s1 s2 s3 : string) :
  String.leb s1 s2 = true -> String.leb s2 s3 = true ->
  String.leb s1 s3 = true.
Proof.
  unfold String.leb. revert s2 s3.
  induction s1 as [|a s1 IH]; intros [|b s2] [|c s3]; simpl; try easy.
  unfold Ascii.compare.
  destruct (N.compare_spec (N_of_ascii a) (N_of_ascii b)) as [E1|L1|G1];
    destruct (N.compare_spec (N_of_ascii b) (N_of_ascii c)) as [E2|L2|G2];
    destruct (N.compare_spec (N_of_ascii a) (N_of_ascii c)) as [E3|L3|G3];
    try easy; try lia.
  apply IH.
Qed.

Lemma string_ltb_false (s1 s2 : string) :
  String.ltb s1 s2 = false <-> String.leb s2 s1 = true.
Proof.
  unfold String.ltb, String.leb. rewrite (String.compare_antisym s2 s1).
  destruct (String.compare s1 s2); simpl; split; congruence.
Qed.

Lemma string_ltb_true (s1 s2 : string) :
  String.ltb s1 s2 = true -> String.leb s1 s2 = true.
Proof.
  unfold String.ltb, String.leb. destruct (String.compare s1 s2); congruence.
Qed.

Lemma inserir_recente_perm (r : registro) (l : list registro) :
  inserir_recente r l ≡ₚ r :: l.
Proof.
  induction l as [|r' l IH]; simpl; [reflexivity|].
  destruct (String.ltb _ _); [|reflexivity].
  rewrite IH. apply Permutation_swap.
Qed.

Lemma ordenar_recentes_perm (l : list registro) : ordenar_recentes l ≡ₚ l.
Proof.
  induction l as [|r l IH]; simpl; [reflexivity|].
  now rewrite inserir_recente_perm, IH.
Qed.

Lemma inserir_recente_sorted (r : registro) (l : list registro) :
  StronglySorted nao_mais_antigo l ->
  StronglySorted nao_mais_antigo (inserir_recente r l).
Proof.
  induction 1 as [|r' l Hs IH Hall]; simpl; [repeat constructor|].
  destruct (String.ltb (timestamp r) (timestamp r')) eqn:E.
  - constructor; [exact IH|].
    rewrite inserir_recente_perm. constructor; [|exact Hall].
    unfold nao_mais_antigo. now apply string_ltb_true.
  - apply string_ltb_false in E.
    constructor; [constructor; assumption|].
    constructor; [exact E|].
    eapply Forall_impl; [exact Hall|]. intros x Hx. unfold nao_mais_antigo in *.
    eapply string_leb_trans; eassumption.
Qed.

Lemma ordenar_recentes_sorted (l : list registro) :
  StronglySorted nao_mais_antigo (ordenar_recentes l).
Proof.
  induction l as [|r l IH]; simpl; [constructor|].
  now apply inserir_recente_sorted.
Qed.

Lemma elem_of_list_filter_bool {A} (f : A -> bool) (l : list A) (x : A) :
  x ∈ List.filter f l <-> x ∈ l /\ f x = true.
Proof. rewrite !list_elem_of_In. apply List.filter_In. Qed.

(** X3: [buscar_por_cpf] returns exactly the records whose CPF, once
    dots, hyphens and outer blanks are dropped, equals the query treated
    the same way, each as often as it is stored, and lists them with no
    record before a more recent one. *)
Theorem buscar_por_cpf_spec (cpf_buscado : string) (h : t) :
  buscar_por_cpf cpf_buscado h
    ≡ₚ List.filter (fun r => bool_decide (limpar_cpf cpf_buscado
                                           = limpar_cpf (cpf r)))
                   (historico h)
  /\ (forall r, r ∈ buscar_por_cpf cpf_buscado h
                <-> r ∈ historico h
                    /\ limpar_cpf (cpf r) = limpar_cpf cpf_buscado)
  /\ StronglySorted nao_mais_antigo (buscar_por_cpf cpf_buscado h).
Proof.
  unfold buscar_por_cpf. split; [apply ordenar_recentes_perm|].
  split; [|apply ordenar_recentes_sorted].
  intros r. rewrite ordenar_recentes_perm, elem_of_list_filter_bool.
  rewrite bool_decide_eq_true. split; intros [H1 H2]; auto.
Qed.

(** X4: [buscar_por_funcionario] returns exactly the records whose name
    contains the trimmed query, letter case ignored, most recent first; a
    blank query returns the whole store. *)
Theorem buscar_por_funcionario_spec (nome_parcial : string) (h : t) :
  (forall r, r ∈ buscar_por_funcionario nome_parcial h
             <-> r ∈ historico h
                 /\ in_str (lower (strip (of_string nome_parcial)))
                           (lower (of_string (nome r))) = true)
  /\ StronglySorted nao_mais_antigo (buscar_por_funcionario nome_parcial h)
  /\ (strip (of_string nome_parcial) = [] ->
      buscar_por_funcionario nome_parcial h ≡ₚ historico h).
Proof.
  unfold buscar_por_funcionario. split; [|split].
  - intros r. now rewrite ordenar_recentes_perm, elem_of_list_filter_bool.
  - apply ordenar_recentes_sorted.
  - intros ->. rewrite ordenar_recentes_perm. simpl.
    assert (H : forall b, in_str [] b = true) by (intros [|? ?]; reflexivity).
    induction (historico h) as [|r l IH]; simpl; [reflexivity|].
    rewrite H. now constructor.
Qed.

Lemma buscar_por_funcionario_spec_witness :
  buscar_por_funcionario "   "
    (snd (adicionar_todos [entrada_exemplo "Ana Lima" true;
                           entrada_exemplo "Rui Paz" true] vazio))
  ≡ₚ historico (snd (adicionar_todos [entrada_exemplo "Ana Lima" true;
                                      entrada_exemplo "Rui Paz" true] vazio)).
Proof.
  apply (buscar_por_funcionario_spec "   "). reflexivity.
Defined.

Lemma startswith_refl (a : str) : startswith a a = true.
Proof.
  induction a as [|c a IH]; simpl; [reflexivity|].
  now rewrite Ascii.eqb_refl, IH.
Qed.

Lemma in_str_refl (a : str) : in_str a a = true.
Proof. destruct a; simpl; [reflexivity|]. now rewrite Ascii.eqb_refl, startswith_refl. Qed.

(** X5: the record that [adicionar_checklist] appends is found afterwards
    by [buscar_por_cpf] with the CPF it was stored under, or with any
    query that differs from it only in dots, hyphens and outer blanks,
    and by [buscar_por_funcionario] with the name it was given. *)
Theorem adicionar_checklist_buscar (now : agora) (grava : bool)
    (n c te : string) (ps : list string) (pdf : string) (h : t) :
  let r := adicionar_checklist now grava n c te ps pdf h in
  exists reg,
    last (historico (snd r)) = Some reg
    /\ id reg = fst r
    /\ (forall q, limpar_cpf q = limpar_cpf c -> reg ∈ buscar_por_cpf q (snd r))
    /\ reg ∈ buscar_por_funcionario n (snd r).
Proof.
  unfold adicionar_checklist.
  eexists. split; [|split; [|split]].
  - destruct grava; simpl; apply last_snoc.
  - destruct grava; reflexivity.
  - intros q Hq. unfold buscar_por_cpf.
    rewrite ordenar_recentes_perm, elem_of_list_filter_bool. split.
    + destruct grava; simpl; apply elem_of_app; right; left.
    + simpl. now apply bool_decide_eq_true.
  - unfold buscar_por_funcionario.
    rewrite ordenar_recentes_perm, elem_of_list_filter_bool. split.
    + destruct grava; simpl; apply elem_of_app; right; left.
    + simpl. unfold to_string, of_string.
      rewrite list_ascii_of_string_of_list_ascii. apply in_str_refl.
Qed.

Lemma adicionar_checklist_buscar_witness :
  exists reg,
    id reg = 1
    /\ reg ∈ buscar_por_cpf "12345678909"
              (snd (adicionar (entrada_exemplo "Ana Lima" true) vazio)).
Proof.
  destruct (adicionar_checklist_buscar
              (e_now (entrada_exemplo "Ana Lima" true)) true "Ana Lima"
              "123.456.789-09" "Admissional"
              ["Triagem"; "Faturamento"]%string "checklist.pdf" vazio)
    as (reg & _ & Hid & Hcpf & _).
  exists reg. split; [exact Hid|]. apply Hcpf. reflexivity.
Defined.

Lemma is_09_nao_espaco (c : ascii) : is_09 c = true -> isspace c = false.
Proof.
  unfold is_09, isspace. generalize (ord c). intros k H.
  apply andb_prop in H as [H1 H2].
  apply Nat.leb_le in H1. apply Nat.leb_le in H2.
  repeat match goal with
         | |- context [(?a <=? ?b)%nat] => destruct (Nat.leb_spec a b)
         | |- context [(?a =? ?b)%nat] => destruct (Nat.eqb_spec a b)
         end; simpl; try reflexivity; lia.
Qed.

Lemma lstrip_digitos (d : str) : forallb is_09 d = true -> lstrip d = d.
Proof.
  destruct d as [|c d]; simpl; [reflexivity|].
  intros [Hc _]%andb_prop. now rewrite (is_09_nao_espaco c Hc).
Qed.

Lemma forallb_rev_09 (d : str) :
  forallb is_09 d = true -> forallb is_09 (rev d) = true.
Proof.
  intros H. apply forallb_forall. intros x Hx.
  apply (proj1 (forallb_forall _ _) H). now apply in_rev.
Qed.

Lemma strip_digitos (d : str) : forallb is_09 d = true -> strip d = d.
Proof.
  intros H. unfold strip, rstrip.
  rewrite (lstrip_digitos d H), (lstrip_digitos (rev d)) by now apply forallb_rev_09.
  apply rev_involutive.
Qed.

Lemma remove_pontuacao_filter (l : str) :
  forallb (fun c => is_09 c || Ascii.eqb c "." || Ascii.eqb c "-") l = true ->
  remove_char "-" (remove_char "." l) = List.filter is_09 l.
Proof.
  unfold remove_char. induction l as [|c l IH]; simpl; [reflexivity|].
  intros [Hc Hl]%andb_prop. specialize (IH Hl).
  destruct (Ascii.eqb_spec c ".") as [->|Hp]; [exact IH|].
  destruct (Ascii.eqb_spec c "-") as [->|Hh];
    [simpl; exact IH|].
  rewrite !orb_false_r in Hc. simpl.
  destruct (Ascii.eqb_spec c "-"); [contradiction|]. simpl.
  now rewrite Hc, IH.
Qed.

Lemma forallb_weaken {A} (f g : A -> bool) (l : list A) :
  (forall x, f x = true -> g x = true) ->
  forallb f l = true -> forallb g l = true.
Proof.
  intros Hfg H. apply forallb_forall. intros x Hx.
  apply Hfg, (proj1 (forallb_forall _ _) H), Hx.
Qed.

Lemma mascara_caracteres (d : str) :
  forallb is_09 d = true ->
  forallb (fun c => is_09 c || Ascii.eqb c "." || Ascii.eqb c "-")
          (SistemaClinico.mascara d) = true.
Proof.
  intros Hd.
  assert (Hw : forall l, forallb is_09 l = true ->
             forallb (fun c => is_09 c || Ascii.eqb c "." || Ascii.eqb c "-") l
             = true).
  { intros l. apply forallb_weaken. intros x ->. reflexivity. }
  unfold SistemaClinico.mascara, slice, slice_from.
  repeat match goal with
         | |- context [(length d <=? ?k)%nat] =>
             destruct (Nat.leb_spec (length d) k)
         end;
    rewrite ?forallb_app; simpl;
    rewrite ?andb_true_r, ?andb_true_iff;
    repeat split;
    apply Hw; auto using forallb_take, forallb_drop.
Qed.

Lemma limpar_cpf_formatar_cpf (s : string) :
  limpar_cpf (SistemaClinico.formatar_cpf s)
  = take 11 (re_sub_nao_digitos (of_string s)).
Proof.
  unfold limpar_cpf, SistemaClinico.formatar_cpf. rewrite of_to_string.
  rewrite remove_pontuacao_filter
    by apply mascara_caracteres, forallb_re_sub.
  fold (re_sub_nao_digitos
          (SistemaClinico.mascara (re_sub_nao_digitos (of_string s)))).
  rewrite mascara_so_digitos by apply forallb_re_sub.
  apply strip_digitos, forallb_take, forallb_re_sub.
Qed.

Lemma limpar_cpf_digitos (s : string) :
  forallb is_09 (of_string s) = true -> limpar_cpf s = of_string s.
Proof.
  intros H. unfold limpar_cpf.
  rewrite remove_pontuacao_filter
    by (revert H; apply forallb_weaken; intros x ->; reflexivity).
  rewrite is_09_filter_id by exact H. now apply strip_digitos.
Qed.

(** X6: a query of at most 11 digits finds the same records whether it is
    typed bare or under the mask of [formatar_cpf]. *)
Theorem buscar_por_cpf_formatado (s : string) (h : t) :
  forallb is_09 (of_string s) = true -> (length (of_string s) <= 11)%nat ->
  buscar_por_cpf (SistemaClinico.formatar_cpf s) h = buscar_por_cpf s h.
Proof.
  intros Hd Hlen. unfold buscar_por_cpf.
  rewrite limpar_cpf_formatar_cpf, limpar_cpf_digitos by exact Hd.
  unfold re_sub_nao_digitos. rewrite is_09_filter_id by exact Hd.
  now rewrite take_ge by exact Hlen.
Qed.

Lemma buscar_por_cpf_formatado_witness :
  buscar_por_cpf "123.456.789-09"
    (snd (adicionar (entrada_exemplo "Ana Lima" true) vazio))
  = buscar_por_cpf "12345678909"
      (snd (adicionar (entrada_exemplo "Ana Lima" true) vazio)).
Proof.
  rewrite <- (buscar_por_cpf_formatado "12345678909");
    [reflexivity | reflexivity | vm_compute; lia].
Defined.

End BuscaFacts.

(** ** The summary per employee *)

Section FuncionariosFacts.
Import GerenciadorHistorico.

Lemma dict_get_set (k k' : string) (v : funcionario) d :
  dict_get k' (dict_set k v d)
  = if decide (k' = k) then Some v else dict_get k' d.
Proof.
  induction d as [|[k0 v0] d IH]; simpl.
  - destruct (decide (k' = k)); reflexivity.
  - destruct (decide (k = k0)) as [->|Hne]; simpl.
    + destruct (decide (k' = k0)); reflexivity.
    + destruct (decide (k' = k0)) as [->|Hne'].
      * destruct (decide (k0 = k)); [congruence | reflexivity].
      * exact IH.
Qed.

Lemma dict_get_None (k : string) d :
  dict_get k d = None <-> k ∉ map fst d.
Proof.
  induction d as [|[k0 v0] d IH]; simpl.
  - split; [intros _ H; inversion H | reflexivity].
  - rewrite not_elem_of_cons. destruct (decide (k = k0)) as [->|Hne].
    + split; [discriminate | tauto].
    + rewrite IH. tauto.
Qed.

Lemma dict_set_keys (k : string) (v : funcionario) d :
  map fst (dict_set k v d)
  = if decide (k ∈ map fst d) then map fst d else map fst d ++ [k].
Proof.
  induction d as [|[k0 v0] d IH]; simpl.
  - destruct (decide (k ∈ [])) as [H|_]; [inversion H | reflexivity].
  - destruct (decide (k = k0)) as [->|Hne]; simpl.
    + destruct (decide (k0 ∈ k0 :: map fst d)) as [_|H];
        [reflexivity | exfalso; apply H; left].
    + rewrite IH. destruct (decide (k ∈ map fst d)) as [Hin|Hout].
      * destruct (decide (k ∈ k0 :: map fst d)) as [_|H];
          [reflexivity | exfalso; apply H; now right].
      * destruct (decide (k ∈ k0 :: map fst d)) as [H|_]; [|reflexivity].
        apply elem_of_cons in H as [H|H]; contradiction.
Qed.

Lemma dict_get_elem_of (k : string) (f : funcionario) d :
  NoDup (map fst d) -> (k, f) ∈ d -> dict_get k d = Some f.
Proof.
  induction d as [|[k0 v0] d IH]; simpl; [intros _ H; inversion H|].
  intros Hnd H. apply NoDup_cons in Hnd as [Hk0 Hnd].
  apply elem_of_cons in H as [[= -> ->]|H].
  - destruct (decide (k0 = k0)); [reflexivity | congruence].
  - destruct (decide (k = k0)) as [->|Hne]; [|auto].
    exfalso. apply Hk0. apply list_elem_of_fmap. exists (k0, f). auto.
Qed.

Lemma mais_recentes_correto (l vistos : list registro) d :
  resumo_correto vistos d ->
  resumo_correto (vistos ++ l) (mais_recentes l d).
Proof.
  revert vistos d. induction l as [|r l IH]; intros vistos d Hd.
  - now rewrite app_nil_r.
  - replace (vistos ++ r :: l) with ((vistos ++ [r]) ++ l)
      by now rewrite <- app_assoc.
    apply IH. clear IH. destruct Hd as (Hnd & Hkeys & Hget).
    assert (Hstep : forall d',
      (d' = dict_set (nome r) (resumo_de r) d
       /\ forall r', r' ∈ vistos -> nome r' = nome r ->
                     String.leb (timestamp r') (timestamp r) = true)
      \/ (d' = d /\ exists f, dict_get (nome r) d = Some f
                   /\ String.leb (timestamp r) (func_timestamp f) = true) ->
      resumo_correto (vistos ++ [r]) d').
    { intros d' [[-> Hmax]|[-> (f & Hf & Hle)]].
      - split; [|split].
        + rewrite dict_set_keys. destruct (decide _); [exact Hnd|].
          apply NoDup_app. split; [exact Hnd|]. split; [|apply NoDup_singleton].
          intros x Hx Hx'. apply list_elem_of_singleton in Hx'. subst. contradiction.
        + intros k. rewrite dict_set_keys.
          destruct (decide (nome r ∈ map fst d)) as [Hin|Hout].
          * rewrite Hkeys. split.
            -- intros (r0 & H0 & <-). exists r0. split; [|reflexivity].
               apply elem_of_app. now left.
            -- intros (r0 & [H0|H0]%elem_of_app & <-); [eauto|].
               apply list_elem_of_singleton in H0 as ->. now apply Hkeys.
          * rewrite elem_of_app, list_elem_of_singleton, Hkeys. split.
            -- intros [(r0 & H0 & <-)| ->].
               ++ exists r0. split; [apply elem_of_app; now left | reflexivity].
               ++ exists r. split; [apply elem_of_app; right; left | reflexivity].
            -- intros (r0 & [H0|H0]%elem_of_app & <-); [left; eauto|].
               apply list_elem_of_singleton in H0 as ->. now right.
        + intros k f. rewrite dict_get_set.
          destruct (decide (k = nome r)) as [->|Hne].
          * intros [= <-]. exists r. split; [apply elem_of_app; right; left|].
            split; [reflexivity|]. split; [reflexivity|].
            intros r' [H'|H']%elem_of_app Hn; [auto|].
            apply list_elem_of_singleton in H' as ->. apply string_leb_refl.
          * intros Hk. destruct (Hget k f Hk) as (r0 & H0 & Hn0 & -> & Hmax0).
            exists r0. split; [apply elem_of_app; now left|].
            split; [exact Hn0|]. split; [reflexivity|].
            intros r' [H'|H']%elem_of_app Hn; [auto|].
            apply list_elem_of_singleton in H' as ->. congruence.
      - split; [exact Hnd|]. split.
        + intros k. rewrite Hkeys. split.
          * intros (r0 & H0 & <-). exists r0. split; [|reflexivity].
            apply elem_of_app. now left.
          * intros (r0 & [H0|H0]%elem_of_app & <-); [eauto|].
            apply list_elem_of_singleton in H0 as ->.
            destruct (Hget _ _ Hf) as (r1 & H1 & Hn1 & _).
            exists r1. split; assumption.
        + intros k f0 Hk. destruct (Hget k f0 Hk) as (r0 & H0 & Hn0 & -> & Hmax0).
          exists r0. split; [apply elem_of_app; now left|].
          split; [exact Hn0|]. split; [reflexivity|].
          intros r' [H'|H']%elem_of_app Hn; [auto|].
          apply list_elem_of_singleton in H' as ->.
          rewrite <- Hn, Hf in Hk. injection Hk as ->. exact Hle. }
    simpl. destruct (dict_get (nome r) d) as [f|] eqn:Hf.
    + destruct (String.ltb (func_timestamp f) (timestamp r)) eqn:Hlt.
      * apply Hstep. left. split; [reflexivity|].
        intros r' Hr' Hn. destruct (Hget _ _ Hf) as (r0 & H0 & Hn0 & -> & Hmax0).
        simpl in Hlt. apply string_ltb_true in Hlt.
        eapply string_leb_trans; [|exact Hlt]. now apply Hmax0.
      * apply Hstep. right. split; [reflexivity|]. exists f.
        split; [reflexivity|]. now apply string_ltb_false.
    + apply Hstep. left. split; [reflexivity|].
      intros r' Hr' Hn. exfalso. apply dict_get_None in Hf. apply Hf.
      apply Hkeys. eauto.
Qed.

Lemma contar_cons (r : registro) (l : list registro) d :
  contar (r :: l) d
  = contar l (match dict_get (nome r) d with
              | Some f => dict_set (nome r) (com_total 1 f) d
              | None => d
              end).
Proof. reflexivity. Qed.

Lemma contar_keys (l : list registro) d :
  map fst (contar l d) = map fst d.
Proof.
  revert d. induction l as [|r l IH]; intros d; [reflexivity|].
  rewrite contar_cons, IH.
  destruct (dict_get (nome r) d) as [f|] eqn:Hf; [|reflexivity].
  rewrite dict_set_keys.
  destruct (decide _) as [_|Hout]; [reflexivity|].
  apply dict_get_None in Hout. congruence.
Qed.

Lemma registros_de_cons (k : string) (r : registro) (l : list registro) :
  registros_de k (r :: l)
  = ((if bool_decide (nome r = k) then 1 else 0) + registros_de k l)%Z.
Proof.
  unfold registros_de. simpl. case_bool_decide; simpl; lia.
Qed.

Lemma com_total_com_total (a b : Z) (f : funcionario) :
  com_total a (com_total b f) = com_total (b + a) f.
Proof. unfold com_total. simpl. f_equal. lia. Qed.

Lemma com_total_0 (f : funcionario) : com_total 0 f = f.
Proof. destruct f. unfold com_total. simpl. f_equal. lia. Qed.

Lemma contar_get (l : list registro) d (k : string) :
  dict_get k (contar l d) = com_total (registros_de k l) <$> dict_get k d.
Proof.
  revert d. induction l as [|r l IH]; intros d.
  - simpl. destruct (dict_get k d) as [f|]; [|reflexivity].
    simpl. now rewrite com_total_0.
  - rewrite contar_cons, IH, registros_de_cons.
    destruct (dict_get (nome r) d) as [f|] eqn:Hf.
    + rewrite dict_get_set. case_bool_decide as Hk.
      * subst k. destruct (decide _); [|congruence]. rewrite Hf. simpl.
        now rewrite com_total_com_total.
      * destruct (decide (k = nome r)); [congruence|].
        now rewrite Z.add_0_l.
    + case_bool_decide as Hk; [|now rewrite Z.add_0_l].
      subst k. now rewrite Hf.
Qed.

Lemma obter_funcionarios_unicos_get (h : t) (f : funcionario) :
  f ∈ obter_funcionarios_unicos h ->
  exists r, r ∈ historico h
            /\ f = com_total (registros_de (nome r) (historico h)) (resumo_de r)
            /\ forall r', r' ∈ historico h -> nome r' = nome r ->
                          String.leb (timestamp r') (timestamp r) = true.
Proof.
  unfold obter_funcionarios_unicos. intros Hf.
  apply list_elem_of_fmap in Hf as ([k f'] & -> & Hin). simpl.
  assert (H1 : resumo_correto (historico h) (mais_recentes (historico h) [])).
  { apply (mais_recentes_correto (historico h) [] []).
    split; [constructor|]. split.
    - intros k0. simpl. split; [intros H; inversion H|].
      intros (r & H & _). inversion H.
    - intros k0 f0 H. discriminate H. }
  destruct H1 as (Hnd & Hkeys & Hget).
  apply dict_get_elem_of in Hin; [|now rewrite contar_keys].
  rewrite contar_get in Hin.
  destruct (dict_get k _) as [f0|] eqn:Hk; [|discriminate Hin].
  injection Hin as <-.
  destruct (Hget _ _ Hk) as (r & Hr & <- & -> & Hmax).
  exists r. split; [exact Hr|]. split; [reflexivity | exact Hmax].
Qed.

(** X7: [obter_funcionarios_unicos] lists every name of the store once
    and only names of the store, and the count it reports for a name is the
    number of records stored under that name. *)
Theorem obter_funcionarios_unicos_nomes (h : t) :
  NoDup (map func_nome (obter_funcionarios_unicos h))
  /\ (forall n, n ∈ map func_nome (obter_funcionarios_unicos h)
                <-> exists r, r ∈ historico h /\ nome r = n)
  /\ (forall f, f ∈ obter_funcionarios_unicos h ->
                total_checklists f
                = registros_de (func_nome f) (historico h)).
Proof.
  assert (H1 : resumo_correto (historico h) (mais_recentes (historico h) [])).
  { apply (mais_recentes_correto (historico h) [] []).
    split; [constructor|]. split.
    - intros k0. simpl. split; [intros H; inversion H|].
      intros (r & H & _). inversion H.
    - intros k0 f0 H. discriminate H. }
  destruct H1 as (Hnd & Hkeys & Hget).
  assert (Hnomes : map func_nome (obter_funcionarios_unicos h)
                   = map fst (mais_recentes (historico h) [])).
  { rewrite <- (contar_keys (historico h)).
    unfold obter_funcionarios_unicos. rewrite map_map.
    apply map_ext_in. intros [k f] Hin. simpl.
    apply list_elem_of_In in Hin.
    apply dict_get_elem_of in Hin; [|now rewrite contar_keys].
    rewrite contar_get in Hin.
    destruct (dict_get k _) as [f0|] eqn:Hk; [|discriminate Hin].
    injection Hin as <-. destruct (Hget _ _ Hk) as (r & _ & <- & -> & _).
    reflexivity. }
  split; [now rewrite Hnomes|]. split; [intros n; now rewrite Hnomes|].
  intros f Hf. apply obter_funcionarios_unicos_get in Hf as (r & _ & -> & _).
  simpl. lia.
Qed.

(** X8: the exam type, date, CPF and timestamp that
    [obter_funcionarios_unicos] reports for a name are those of one stored
    record of that name, and no record of that name has a later
    timestamp. *)
Theorem obter_funcionarios_unicos_recente (h : t) (f : funcionario) :
  f ∈ obter_funcionarios_unicos h ->
  exists r, r ∈ historico h
            /\ nome r = func_nome f /\ cpf r = func_cpf f
            /\ tipo_exame r = ultimo_tipo_exame f
            /\ data_formatada r = ultima_data f
            /\ timestamp r = func_timestamp f
            /\ forall r', r' ∈ historico h -> nome r' = func_nome f ->
                          String.leb (timestamp r') (func_timestamp f) = true.
Proof.
  intros Hf. apply obter_funcionarios_unicos_get in Hf as (r & Hr & -> & Hmax).
  exists r. simpl. repeat split; try reflexivity; assumption.
Qed.

Lemma obter_funcionarios_unicos_nomes_witness :
  Forall (fun f => total_checklists f
                   = registros_de (func_nome f)
                       (historico
                          (snd (adicionar_todos
                                  [entrada_exemplo "Ana Lima" true;
                                   entrada_exemplo "Rui Paz" true;
                                   entrada_exemplo "Ana Lima" false] vazio))))
         (obter_funcionarios_unicos
            (snd (adicionar_todos [entrada_exemplo "Ana Lima" true;
                                   entrada_exemplo "Rui Paz" true;
                                   entrada_exemplo "Ana Lima" false] vazio)))
  /\ map total_checklists
       (obter_funcionarios_unicos
          (snd (adicionar_todos [entrada_exemplo "Ana Lima" true;
                                 entrada_exemplo "Rui Paz" true;
                                 entrada_exemplo "Ana Lima" false] vazio)))
     = [2; 1].
Proof.
  destruct (obter_funcionarios_unicos_nomes
              (snd (adicionar_todos [entrada_exemplo "Ana Lima" true;
                                     entrada_exemplo "Rui Paz" true;
                                     entrada_exemplo "Ana Lima" false] vazio)))
    as (_ & _ & H).
  split; [apply Forall_forall; exact H | reflexivity].
Defined.

Lemma obter_funcionarios_unicos_recente_witness :
  exists f r,
    f ∈ obter_funcionarios_unicos
          (snd (adicionar_todos [entrada_exemplo "Ana Lima" true;
                                 entrada_exemplo "Rui Paz" true] vazio))
    /\ nome r = func_nome f /\ timestamp r = func_timestamp f.
Proof.
  assert (Hex : exists f,
    f ∈ obter_funcionarios_unicos
          (snd (adicionar_todos [entrada_exemplo "Ana Lima" true;
                                 entrada_exemplo "Rui Paz" true] vazio))).
  { destruct (obter_funcionarios_unicos _) as [|f fs] eqn:E;
      [vm_compute in E; discriminate E|].
    exists f. left. }
  destruct Hex as [f Hf].
  destruct (obter_funcionarios_unicos_recente _ f Hf)
    as (r & _ & Hn & _ & _ & _ & Ht & _).
  exists f, r. split; [exact Hf|]. split; assumption.
Defined.

End FuncionariosFacts.

(** ** More on the CPF helpers *)

Section CpfMais.
Import PyText SistemaClinico.

(** X9: the digits of a formatted CPF are the first 11 digits of the
    input, in order; the formatted text is made of digits, dots and
    hyphens only and is never longer than 14 characters. *)
Theorem formatar_cpf_digitos (s : string) :
  re_sub_nao_digitos (of_string (formatar_cpf s))
  = take 11 (re_sub_nao_digitos (of_string s))
  /\ forallb (fun c => is_09 c || Ascii.eqb c "." || Ascii.eqb c "-")
             (of_string (formatar_cpf s)) = true
  /\ (length (of_string (formatar_cpf s)) <= 14)%nat.
Proof.
  unfold formatar_cpf. rewrite of_to_string.
  split; [apply mascara_so_digitos, forallb_re_sub|].
  split; [apply mascara_caracteres, forallb_re_sub|].
  generalize (re_sub_nao_digitos (of_string s)). intros d.
  do 12 (destruct d as [|? d]; [simpl; lia|]). simpl. lia.
Qed.

(** X10: formatting does not change the verdict of [validar_cpf] on an
    input with at most 11 digits. *)
Theorem validar_cpf_formatar_cpf (s : string) :
  (length (re_sub_nao_digitos (of_string s)) <= 11)%nat ->
  validar_cpf (formatar_cpf s) = validar_cpf s.
Proof.
  intros Hlen. unfold validar_cpf, formatar_cpf. rewrite of_to_string.
  rewrite mascara_so_digitos by apply forallb_re_sub.
  now rewrite take_ge by exact Hlen.
Qed.

Lemma validar_cpf_formatar_cpf_witness :
  validar_cpf (formatar_cpf "52998224725") = true.
Proof.
  rewrite validar_cpf_formatar_cpf; [reflexivity | vm_compute; lia].
Defined.

Lemma validar_cpf_true (s : string) :
  validar_cpf s = true ->
  length (re_sub_nao_digitos (of_string s)) = 11%nat
  /\ verificadores_conferem (digitos s).
Proof.
  intros H.
  destruct (Nat.eq_dec (length (re_sub_nao_digitos (of_string s))) 11%nat)
    as [Hlen|Hlen]; [|rewrite validar_cpf_comprimento in H by exact Hlen;
                      discriminate H].
  split; [exact Hlen|]. apply validar_cpf_onze; [exact Hlen| |exact H].
  intros Hi. rewrite validar_cpf_todos_iguais in H by exact Hi. discriminate H.
Qed.

Lemma int_of_char_inj (a b : ascii) : int_of_char a = int_of_char b -> a = b.
Proof.
  unfold int_of_char, ord. intros H.
  assert (Hn : nat_of_ascii a = nat_of_ascii b) by lia.
  rewrite <- (ascii_nat_embedding a), <- (ascii_nat_embedding b). now rewrite Hn.
Qed.

(** X11: the first nine digits of a CPF that [validar_cpf] accepts fix
    the other two: two accepted inputs that agree on their first nine
    digits have the same eleven digits. *)
Theorem validar_cpf_nove_digitos (a b : string) :
  validar_cpf a = true -> validar_cpf b = true ->
  take 9 (re_sub_nao_digitos (of_string a))
  = take 9 (re_sub_nao_digitos (of_string b)) ->
  re_sub_nao_digitos (of_string a) = re_sub_nao_digitos (of_string b).
Proof.
  intros Ha Hb. apply validar_cpf_true in Ha as [La Va].
  apply validar_cpf_true in Hb as [Lb Vb]. revert Va Vb.
  unfold verificadores_conferem, digitos.
  generalize dependent (re_sub_nao_digitos (of_string b)).
  generalize dependent (re_sub_nao_digitos (of_string a)).
  intros da La db Lb.
  do 11 (destruct da as [|? da]; [discriminate La|]).
  destruct da; [|discriminate La].
  do 11 (destruct db as [|? db]; [discriminate Lb|]).
  destruct db; [|discriminate Lb].
  cbn [map take lookup list_lookup].
  intros [V1 V2] [W1 W2] Ht. injection Ht as -> -> -> -> -> -> -> -> ->.
  rewrite <- W1 in V1. injection V1 as V1. apply int_of_char_inj in V1 as ->.
  rewrite <- W2 in V2. injection V2 as V2. apply int_of_char_inj in V2 as ->.
  reflexivity.
Qed.

Lemma validar_cpf_nove_digitos_witness :
  re_sub_nao_digitos (of_string "529.982.247-25")
  = re_sub_nao_digitos (of_string "52998224725").
Proof.
  apply validar_cpf_nove_digitos; reflexivity.
Defined.

End CpfMais.

(** ** More on the catalog and the mandatory list *)

Section CatalogoMais.
Import SistemaClinico.

(** X12: [definir_requer_laudo] refuses a name that is not in the catalog
    and changes nothing; on a catalog name it succeeds, the flag read back
    by [procedimento_requer_laudo] is the one written, and no other entry
    and no mandatory name changes. *)
Theorem definir_requer_laudo_spec (p : string) (b : bool) (s : t) :
  (procedimentos_db s !! p = None -> definir_requer_laudo p b s = (false, s))
  /\ (is_Some (procedimentos_db s !! p) ->
      let r := definir_requer_laudo p b s in
      fst r = true
      /\ procedimento_requer_laudo (procedimentos_db (snd r)) p = b
      /\ (forall q, q <> p ->
            procedimentos_db (snd r) !! q = procedimentos_db s !! q)
      /\ procedimentos_obrigatorios (snd r) = procedimentos_obrigatorios s).
Proof.
  unfold definir_requer_laudo. split.
  - intros ->. reflexivity.
  - intros [d ->]. simpl. split; [reflexivity|]. split.
    + unfold procedimento_requer_laudo. now rewrite lookup_insert_eq.
    + split; [|reflexivity]. intros q Hq. now rewrite lookup_insert_ne.
Qed.

Lemma definir_requer_laudo_spec_witness :
  procedimento_requer_laudo
    (procedimentos_db
       (snd (definir_requer_laudo "Audiometria" true (init sem_arquivos))))
    "Audiometria" = true.
Proof.
  destruct (definir_requer_laudo_spec "Audiometria" true (init sem_arquivos))
    as [_ H].
  apply H. compute_done.
Defined.

(** X13: [adicionar_procedimento] succeeds exactly on a non-empty name
    that is not in the catalog; the new entry requires no report and no
    other entry changes; a refused call changes nothing. *)
Theorem adicionar_procedimento_spec (p : string) (s : t) :
  let r := adicionar_procedimento p s in
  (fst r = true <-> p <> EmptyString /\ procedimentos_db s !! p = None)
  /\ (fst r = false -> snd r = s)
  /\ (fst r = true ->
      procedimentos_db (snd r) !! p = Some {| requer_laudo := false |}
      /\ (forall q, q <> p ->
            procedimentos_db (snd r) !! q = procedimentos_db s !! q)
      /\ procedimentos_obrigatorios (snd r) = procedimentos_obrigatorios s).
Proof.
  unfold adicionar_procedimento.
  case_bool_decide as Hp; simpl.
  { repeat split; try discriminate; tauto. }
  case_bool_decide as Hk; simpl.
  - repeat split; try discriminate.
    intros [_ Hn]. rewrite Hn in Hk. destruct Hk; discriminate.
  - split; [split; [intros _; split; [exact Hp|] | reflexivity]|].
    + destruct (procedimentos_db s !! p) eqn:E; [|reflexivity].
      exfalso. apply Hk. eauto.
    + split; [discriminate|]. intros _.
      split; [apply lookup_insert_eq|]. split; [|reflexivity].
      intros q Hq. now rewrite lookup_insert_ne.
Qed.

Lemma adicionar_procedimento_spec_witness :
  fst (adicionar_procedimento "Ultrassom" (init sem_arquivos)) = true
  /\ fst (adicionar_procedimento "Triagem" (init sem_arquivos)) = false.
Proof.
  split.
  - destruct (adicionar_procedimento_spec "Ultrassom" (init sem_arquivos))
      as [H _].
    apply (proj2 H). split; [discriminate | reflexivity].
  - destruct (fst (adicionar_procedimento "Triagem" (init sem_arquivos))) eqn:E;
      [|reflexivity].
    destruct (adicionar_procedimento_spec "Triagem" (init sem_arquivos))
      as [H _].
    apply (proj1 H) in E as [_ E]. vm_compute in E. discriminate E.
Defined.

(** X14: removing a procedure that was just added to a catalog that did
    not have it gives the catalog back; removing a name that is not in the
    catalog is refused and changes nothing. *)
Theorem remover_procedimento_db_apos_adicionar (p : string) (s : t) :
  (p <> EmptyString -> procedimentos_db s !! p = None ->
   let r := remover_procedimento_db p (snd (adicionar_procedimento p s)) in
   fst r = true
   /\ procedimentos_db (snd r) = procedimentos_db s
   /\ procedimentos_obrigatorios (snd r) = procedimentos_obrigatorios s)
  /\ (procedimentos_db s !! p = None ->
      remover_procedimento_db p s = (false, s)).
Proof.
  split.
  - intros Hp Hn. unfold adicionar_procedimento, remover_procedimento_db.
    rewrite (bool_decide_eq_false_2 _ Hp), Hn.
    rewrite (bool_decide_eq_false_2 (is_Some None))
      by (intros [? ?]; discriminate).
    simpl. rewrite lookup_insert_eq.
    rewrite bool_decide_eq_true_2 by eauto. simpl.
    split; [reflexivity|]. split; [|reflexivity].
    rewrite delete_insert_eq. now apply delete_id.
  - intros Hn. unfold remover_procedimento_db. rewrite Hn.
    now rewrite (bool_decide_eq_false_2 (is_Some None))
      by (intros [? ?]; discriminate).
Qed.

Lemma remover_procedimento_db_apos_adicionar_witness :
  procedimentos_db
    (snd (remover_procedimento_db "Ultrassom"
            (snd (adicionar_procedimento "Ultrassom" (init sem_arquivos)))))
  = procedimentos_db (init sem_arquivos).
Proof.
  destruct (remover_procedimento_db_apos_adicionar "Ultrassom"
              (init sem_arquivos)) as [H _].
  apply H; [discriminate | reflexivity].
Defined.

Lemma remove_app_novo (p : string) (l : list string) :
  p ∉ l -> PyList.remove p (l ++ [p]) = l.
Proof.
  induction l as [|y l IH]; simpl; intros Hp.
  - destruct (decide (p = p)); [reflexivity | congruence].
  - apply not_elem_of_cons in Hp as [Hne Hp].
    destruct (decide (p = y)); [contradiction|]. now rewrite IH.
Qed.

Lemma remove_nodup_not_in (p : string) (l : list string) :
  NoDup l -> p ∉ PyList.remove p l.
Proof.
  induction 1 as [|y l Hy Hnd IH]; simpl; [apply not_elem_of_nil|].
  destruct (decide (p = y)) as [->|Hne]; [exact Hy|].
  apply not_elem_of_cons. split; assumption.
Qed.

(** X15: [alternar_obrigatorio] always answers [True]; on a name that is
    not mandatory it appends the name, and a second toggle then restores
    the list; on a name of a list without repetitions it removes the name. *)
Theorem alternar_obrigatorio_spec (p : string) (s : t) :
  fst (alternar_obrigatorio p s) = true
  /\ procedimentos_db (snd (alternar_obrigatorio p s)) = procedimentos_db s
  /\ (p ∉ procedimentos_obrigatorios s ->
      procedimentos_obrigatorios (snd (alternar_obrigatorio p s))
      = procedimentos_obrigatorios s ++ [p]
      /\ procedimentos_obrigatorios
           (snd (alternar_obrigatorio p (snd (alternar_obrigatorio p s))))
         = procedimentos_obrigatorios s)
  /\ (p ∈ procedimentos_obrigatorios s -> NoDup (procedimentos_obrigatorios s) ->
      (p ∉ procedimentos_obrigatorios (snd (alternar_obrigatorio p s)))
      /\ (forall q, q <> p ->
           (q ∈ procedimentos_obrigatorios (snd (alternar_obrigatorio p s))
            <-> q ∈ procedimentos_obrigatorios s))).
Proof.
  unfold alternar_obrigatorio, PyList.contains. simpl.
  split; [reflexivity|]. split; [reflexivity|]. split.
  - intros Hp. rewrite (bool_decide_eq_false_2 _ Hp).
    split; [reflexivity|].
    rewrite bool_decide_eq_true_2 by (apply elem_of_app; right; left).
    now apply remove_app_novo.
  - intros Hp Hnd. rewrite (bool_decide_eq_true_2 _ Hp).
    split; [now apply remove_nodup_not_in|].
    intros q Hq. split; [apply remove_subseteq|].
    intros Hin. now apply remove_elem_of_ne.
Qed.

Lemma alternar_obrigatorio_spec_witness :
  procedimentos_obrigatorios
    (snd (alternar_obrigatorio "Glicemia"
            (snd (alternar_obrigatorio "Glicemia" (init sem_arquivos)))))
  = procedimentos_obrigatorios (init sem_arquivos)
  /\ "Triagem"%string
     ∉ procedimentos_obrigatorios
         (snd (alternar_obrigatorio "Triagem" (init sem_arquivos))).
Proof.
  split.
  - destruct (alternar_obrigatorio_spec "Glicemia" (init sem_arquivos))
      as (_ & _ & H & _).
    apply H. compute_done.
  - destruct (alternar_obrigatorio_spec "Triagem" (init sem_arquivos))
      as (_ & _ & _ & H).
    apply H; compute_done.
Defined.

Lemma completar_obrigatorios_fixo (nomes ob : list string) :
  (forall k, k ∈ nomes -> k ∈ ob) ->
  foldl (fun l obrig => if PyList.contains obrig l then l else l ++ [obrig])
        ob nomes = ob.
Proof.
  induction nomes as [|k nomes IH]; intros H; simpl; [reflexivity|].
  unfold PyList.contains at 2.
  rewrite bool_decide_eq_true_2 by (apply H; left).
  apply IH. intros k' Hk'. apply H. now right.
Qed.

Lemma completar_db_fixo (nomes : list string) (db : gmap string dados) :
  (forall k, k ∈ nomes -> is_Some (db !! k)) ->
  foldl (fun m obrig =>
           match m !! obrig with
           | Some _ => m
           | None => <[obrig := {| requer_laudo := false |}]> m
           end) db nomes = db.
Proof.
  induction nomes as [|k nomes IH]; intros H; simpl; [reflexivity|].
  destruct (H k) as [d ->]; [left|].
  apply IH. intros k' Hk'. apply H. now right.
Qed.

Lemma completar_obrigatorios_idempotente (ob : list string) :
  completar_obrigatorios (completar_obrigatorios ob) = completar_obrigatorios ob.
Proof.
  apply completar_obrigatorios_fixo. intros k Hk.
  apply completar_obrigatorios_elem_of. now right.
Qed.

Lemma completar_db_idempotente (db : gmap string dados) :
  completar_db (completar_db db) = completar_db db.
Proof.
  apply completar_db_fixo. intros k Hk.
  apply completar_db_lookup. now right.
Qed.

Lemma garantir_garantir (s : t) :
  _garantir_procedimentos_obrigatorios_completos
    (_garantir_procedimentos_obrigatorios_completos s)
  = _garantir_procedimentos_obrigatorios_completos s.
Proof.
  unfold _garantir_procedimentos_obrigatorios_completos,
    salvar_config, salvar_procedimentos.
  cbn [procedimentos_db procedimentos_obrigatorios disco arq_config
       arq_procedimentos].
  now rewrite completar_obrigatorios_idempotente, completar_db_idempotente.
Qed.

Lemma carregar_apos_garantir (s : t) :
  carregar_dados (disco (_garantir_procedimentos_obrigatorios_completos s))
  = _garantir_procedimentos_obrigatorios_completos s.
Proof. reflexivity. Qed.

(** X16: starting the program again on the files that a start has left
    gives the same catalog, the same mandatory list and the same files:
    [__init__] reaches a fixed point after one run, whatever the files
    held before. *)
Theorem init_reinicio (d : arquivos) : init (disco (init d)) = init d.
Proof.
  unfold init. rewrite carregar_apos_garantir. apply garantir_garantir.
Qed.

Lemma inserir_todos_lookup (nomes : list string) (db : gmap string dados)
    (p : string) :
  inserir_todos nomes db !! p
  = if bool_decide (p ∈ nomes) then Some {| requer_laudo := false |}
    else db !! p.
Proof.
  unfold inserir_todos. revert db.
  induction nomes as [|k nomes IH]; intros db; simpl; [reflexivity|].
  rewrite IH. case_bool_decide as Hin.
  - rewrite bool_decide_eq_true_2 by now right. reflexivity.
  - destruct (decide (p = k)) as [->|Hne].
    + rewrite bool_decide_eq_true_2 by left. apply lookup_insert_eq.
    + rewrite bool_decide_eq_false_2
        by (intros [?|?]%elem_of_cons; contradiction).
      now apply lookup_insert_ne.
Qed.

Lemma completar_db_valor (nomes : list string) (db : gmap string dados)
    (p : string) (v : dados) :
  foldl (fun m obrig =>
           match m !! obrig with
           | Some _ => m
           | None => <[obrig := {| requer_laudo := false |}]> m
           end) db nomes !! p = Some v ->
  db !! p = Some v \/ v = {| requer_laudo := false |}.
Proof.
  revert db. induction nomes as [|k nomes IH]; intros db; simpl; [auto|].
  intros H. apply IH in H as [H|H]; [|auto].
  destruct (db !! k) eqn:Hk; [auto|].
  destruct (decide (p = k)) as [->|Hne].
  - rewrite lookup_insert_eq in H. injection H as <-. auto.
  - rewrite lookup_insert_ne in H by congruence. auto.
Qed.

(** X17: when [procedimentos.json] holds the old plain list of names,
    startup turns every listed name into a catalog entry, no entry of the
    resulting catalog requires a report, and the file is rewritten as the
    dictionary (file writes being taken to succeed). *)
Theorem init_lista_simples (d : arquivos) (nomes : list string) :
  arq_procedimentos d = Some (ListaSimples nomes) ->
  (forall p, p ∈ nomes ->
     procedimentos_db (init d) !! p = Some {| requer_laudo := false |})
  /\ (forall p, procedimento_requer_laudo (procedimentos_db (init d)) p = false)
  /\ arq_procedimentos (disco (init d))
     = Some (Dicionario (procedimentos_db (init d))).
Proof.
  intros Hd.
  assert (Hdb : procedimentos_db (init d)
                = completar_db (inserir_todos nomes ∅)).
  { unfold init, carregar_dados. rewrite Hd.
    destruct (arq_config d); reflexivity. }
  assert (Hval : forall p v, procedimentos_db (init d) !! p = Some v ->
                             v = {| requer_laudo := false |}).
  { intros p v. rewrite Hdb. intros H.
    apply completar_db_valor in H as [H|H]; [|exact H].
    rewrite inserir_todos_lookup in H.
    case_bool_decide; [congruence|]. rewrite lookup_empty in H. discriminate. }
  split; [|split; [|reflexivity]].
  - intros p Hp.
    assert (His : is_Some (procedimentos_db (init d) !! p)).
    { rewrite Hdb. apply completar_db_lookup. left.
      rewrite inserir_todos_lookup, bool_decide_eq_true_2 by exact Hp. eauto. }
    destruct His as [v Hv]. rewrite Hv. f_equal. eapply Hval, Hv.
  - intros p. unfold procedimento_requer_laudo.
    destruct (procedimentos_db (init d) !! p) as [v|] eqn:Hv; [|reflexivity].
    now rewrite (Hval p v Hv).
Qed.

Lemma init_lista_simples_witness :
  procedimentos_db
    (init {| arq_procedimentos := Some (ListaSimples ["Audiometria"; "Glicemia"]%string);
             arq_config := None |}) !! "Glicemia"%string
  = Some {| requer_laudo := false |}.
Proof.
  eapply (init_lista_simples _ ["Audiometria"; "Glicemia"]%string);
    [reflexivity|]. compute_done.
Defined.

(** X18: after startup the two files hold the catalog and the mandatory
    list of the object, and every operation that changes one of them
    leaves the files in step with the object (file writes being taken to
    succeed). *)
Theorem persistido_preservado :
  (forall d, persistido (init d))
  /\ (forall p s, persistido s -> persistido (snd (adicionar_procedimento p s)))
  /\ (forall p s, persistido s -> persistido (snd (remover_procedimento_db p s)))
  /\ (forall p s, persistido s -> persistido (snd (alternar_obrigatorio p s)))
  /\ (forall a n s, persistido s ->
                    persistido (snd (editar_procedimento_db a n s)))
  /\ (forall p b s, persistido s ->
                    persistido (snd (definir_requer_laudo p b s))).
Proof.
  unfold persistido. repeat split.
  - intros p s H. unfold adicionar_procedimento.
    destruct (_ && _); simpl; [now rewrite H | exact H].
  - intros p s H. unfold remover_procedimento_db.
    case_bool_decide; simpl; [now rewrite H | exact H].
  - intros p s H. unfold alternar_obrigatorio. simpl. now rewrite H.
  - intros a n s H. unfold editar_procedimento_db.
    destruct (procedimentos_db s !! a); [|exact H].
    case_bool_decide; [exact H | reflexivity].
  - intros p b s H. unfold definir_requer_laudo.
    destruct (procedimentos_db s !! p); simpl; [now rewrite H | exact H].
Qed.

Lemma persistido_preservado_witness :
  persistido (snd (alternar_obrigatorio "Glicemia" (init sem_arquivos))).
Proof.
  destruct persistido_preservado as (H0 & _ & _ & H & _).
  apply H, H0.
Defined.

End CatalogoMais.

(** ** The selection list of the form *)

Section SelecaoFacts.
Import ValidadorAvancado GerenciadorInterface.

Lemma ordenar_forma (sel : list string) :
  _ordenar_procedimentos sel
  = (let triagem := PyList.contains "Triagem" sel in
     let faturamento := PyList.contains "Faturamento" sel in
     let s1 := if triagem then PyList.remove "Triagem" sel else sel in
     let s2 := if faturamento then PyList.remove "Faturamento" s1 else s1 in
     let s3 := if triagem then "Triagem"%string :: s2 else s2 in
     if faturamento then s3 ++ ["Faturamento"%string] else s3).
Proof. destruct sel; reflexivity. Qed.

Lemma contains_false (x : string) (l : list string) :
  PyList.contains x l = false <-> x ∉ l.
Proof. unfold PyList.contains. apply bool_decide_eq_false. Qed.

Lemma remove_not_in (x : string) (l : list string) :
  x ∉ l -> PyList.remove x l = l.
Proof.
  induction l as [|y l IH]; simpl; [reflexivity|].
  intros [Hne Hl]%not_elem_of_cons.
  destruct (decide (x = y)); [contradiction|]. now rewrite IH.
Qed.

Lemma remove_head (x : string) (l : list string) :
  PyList.remove x (x :: l) = l.
Proof. simpl. destruct (decide (x = x)); [reflexivity | congruence]. Qed.

Lemma ordenar_perm (sel : list string) : _ordenar_procedimentos sel ≡ₚ sel.
Proof.
  rewrite ordenar_forma. cbv zeta.
  destruct (PyList.contains "Triagem" sel) eqn:Ht;
    destruct (PyList.contains "Faturamento" sel) eqn:Hf.
  - apply contains_spec in Ht, Hf.
    assert (Hf1 : "Faturamento"%string ∈ PyList.remove "Triagem" sel)
      by (apply remove_elem_of_ne; [exact Hf | discriminate]).
    rewrite (remove_perm _ _ Ht) at 2. rewrite (remove_perm _ _ Hf1) at 2.
    rewrite <- Permutation_cons_append. apply Permutation_swap.
  - apply contains_spec in Ht. symmetry. now apply remove_perm.
  - apply contains_spec in Hf. rewrite <- Permutation_cons_append.
    symmetry. now apply remove_perm.
  - reflexivity.
Qed.

(** X19: on a selection without repetitions the ordering rule changes
    nothing when applied a second time, and its result has no repetitions
    either. *)
Theorem ordenar_procedimentos_idempotente (sel : list string) :
  NoDup sel ->
  _ordenar_procedimentos (_ordenar_procedimentos sel)
  = _ordenar_procedimentos sel
  /\ NoDup (_ordenar_procedimentos sel).
Proof.
  intros Hnd. split; [|now rewrite ordenar_perm].
  assert (Hr : NoDup (_ordenar_procedimentos sel)) by now rewrite ordenar_perm.
  assert (HT : PyList.contains "Triagem" (_ordenar_procedimentos sel)
               = PyList.contains "Triagem" sel).
  { unfold PyList.contains. apply bool_decide_ext. now rewrite ordenar_perm. }
  assert (HF : PyList.contains "Faturamento" (_ordenar_procedimentos sel)
               = PyList.contains "Faturamento" sel).
  { unfold PyList.contains. apply bool_decide_ext. now rewrite ordenar_perm. }
  rewrite (ordenar_forma (_ordenar_procedimentos sel)). cbv zeta.
  rewrite HT, HF. revert Hr. rewrite (ordenar_forma sel). cbv zeta.
  destruct (PyList.contains "Triagem" sel) eqn:Ht;
    destruct (PyList.contains "Faturamento" sel) eqn:Hf; intros Hr.
  - cbn [app] in *. rewrite remove_head.
    apply NoDup_cons in Hr as [_ Hr].
    apply NoDup_app in Hr as (_ & Hdisj & _).
    rewrite remove_app_novo; [reflexivity|].
    intros Hin. apply (Hdisj _ Hin). left.
  - now rewrite remove_head.
  - apply NoDup_app in Hr as (_ & Hdisj & _).
    rewrite remove_app_novo; [reflexivity|].
    intros Hin. apply (Hdisj _ Hin). left.
  - reflexivity.
Qed.

Lemma ordenar_procedimentos_idempotente_witness :
  _ordenar_procedimentos
    (_ordenar_procedimentos ["Glicemia"; "Faturamento"; "Triagem"]%string)
  = _ordenar_procedimentos ["Glicemia"; "Faturamento"; "Triagem"]%string.
Proof.
  apply ordenar_procedimentos_idempotente. compute_done.
Defined.

Lemma acrescentar_geral (ob sel ad : list string) :
  let r := foldl (fun '(sel, adicionados) proc_obrig =>
                    if PyList.contains proc_obrig sel
                    then (sel, adicionados)
                    else (sel ++ [proc_obrig], adicionados ++ [proc_obrig]))
                 (sel, ad) ob in
  (forall x, x ∈ fst r <-> x ∈ sel \/ x ∈ ob)
  /\ (NoDup sel -> NoDup (fst r))
  /\ ((forall p, p ∈ ob -> p ∈ sel) -> r = (sel, ad))
  /\ (snd r = [] -> forall p, p ∈ ob -> p ∈ sel).
Proof.
  revert sel ad. induction ob as [|k ob IH]; intros sel ad; simpl.
  - repeat split; auto; try tauto.
    + intros [H|H]; [exact H | inversion H].
    + intros _ p H. inversion H.
  - destruct (PyList.contains k sel) eqn:Hk.
    + apply contains_spec in Hk.
      destruct (IH sel ad) as (H1 & H2 & H3 & H4). cbv zeta in *.
      split; [|split; [exact H2|split]].
      * intros x. rewrite H1, elem_of_cons. split; [tauto|].
        intros [H|[->|H]]; auto.
      * intros H. apply H3. intros p Hp. apply H. now right.
      * intros Hs p [->|Hp]%elem_of_cons; auto.
    + apply contains_false in Hk.
      destruct (IH (sel ++ [k]) (ad ++ [k])) as (H1 & H2 & H3 & H4).
      cbv zeta in *. split; [|split; [|split]].
      * intros x. rewrite H1, elem_of_app, list_elem_of_singleton, elem_of_cons.
        tauto.
      * intros Hnd. apply H2. apply NoDup_app. split; [exact Hnd|].
        split; [|apply NoDup_singleton].
        intros x Hx Hx'. apply list_elem_of_singleton in Hx' as ->. contradiction.
      * intros H. exfalso. apply Hk, H. left.
      * intros Hs. exfalso.
        assert (Hlen : forall ob' s a,
          (length a <= length (snd (foldl (fun '(sel, adicionados) proc_obrig =>
                    if PyList.contains proc_obrig sel
                    then (sel, adicionados)
                    else (sel ++ [proc_obrig], adicionados ++ [proc_obrig]))
                 (s, a) ob')))%nat).
        { induction ob' as [|k' ob' IH']; intros s a; simpl; [lia|].
          destruct (PyList.contains k' s); [apply IH'|].
          etransitivity; [|apply IH']. rewrite length_app. simpl. lia. }
        specialize (Hlen ob (sel ++ [k]) (ad ++ [k])).
        rewrite Hs, length_app in Hlen. simpl in Hlen. lia.
Qed.

Lemma minimos_aceita (procs ob : list string) :
  procs <> [] -> (forall p, p ∈ ob -> p ∈ procs) ->
  fst (validar_procedimentos_minimos procs ob) = true.
Proof.
  intros Hne Hall. unfold validar_procedimentos_minimos.
  destruct procs as [|q qs]; [congruence|].
  replace (List.filter _ ob) with (@nil string); [reflexivity|].
  symmetry. apply filter_nil_iff. intros x Hx.
  apply negb_false_iff, bool_decide_eq_true. auto.
Qed.

(** X20: [_garantir_procedimentos_obrigatorios] returns the selected
    names together with the mandatory ones and nothing else, without
    repetitions when the selection had none, and its result, unless empty,
    passes [validar_procedimentos_minimos]. *)
Theorem garantir_procedimentos_obrigatorios_spec (ob sel : list string) :
  let r := _garantir_procedimentos_obrigatorios ob sel in
  (forall x, x ∈ r <-> x ∈ sel \/ x ∈ ob)
  /\ (NoDup sel -> NoDup r)
  /\ (r <> [] -> fst (validar_procedimentos_minimos r ob) = true).
Proof.
  unfold _garantir_procedimentos_obrigatorios, acrescentar_obrigatorios.
  destruct (acrescentar_geral ob sel []) as (H1 & H2 & _ & _). cbv zeta in *.
  split; [|split].
  - intros x. now rewrite ordenar_perm.
  - intros Hnd. rewrite ordenar_perm. auto.
  - intros Hne. apply minimos_aceita; [exact Hne|].
    intros p Hp. rewrite ordenar_perm. apply H1. now right.
Qed.

Lemma garantir_procedimentos_obrigatorios_spec_witness :
  NoDup (_garantir_procedimentos_obrigatorios
           ["Exame Clínico"; "Faturamento"; "Triagem"]%string
           ["Glicemia"; "Triagem"]%string)
  /\ fst (validar_procedimentos_minimos
            (_garantir_procedimentos_obrigatorios
               ["Exame Clínico"; "Faturamento"; "Triagem"]%string
               ["Glicemia"; "Triagem"]%string)
            ["Exame Clínico"; "Faturamento"; "Triagem"]%string) = true.
Proof.
  destruct (garantir_procedimentos_obrigatorios_spec
              ["Exame Clínico"; "Faturamento"; "Triagem"]%string
              ["Glicemia"; "Triagem"]%string) as (_ & H2 & H3).
  split; [apply H2; compute_done | apply H3; discriminate].
Defined.

(** X21: [_adicionar_obrigatorios] leaves the selection exactly as it is,
    order included, when every mandatory name is already selected;
    otherwise it gives what [_garantir_procedimentos_obrigatorios] gives. *)
Theorem adicionar_obrigatorios_spec (ob sel : list string) :
  ((forall p, p ∈ ob -> p ∈ sel) -> _adicionar_obrigatorios ob sel = sel)
  /\ (~ (forall p, p ∈ ob -> p ∈ sel) ->
      _adicionar_obrigatorios ob sel
      = _garantir_procedimentos_obrigatorios ob sel).
Proof.
  unfold _adicionar_obrigatorios, _garantir_procedimentos_obrigatorios,
    acrescentar_obrigatorios.
  destruct (acrescentar_geral ob sel []) as (_ & _ & H3 & H4). cbv zeta in *.
  split.
  - intros H. now rewrite (H3 H).
  - intros H. destruct (foldl _ _ ob) as [sel' ad]. simpl in *.
    destruct ad; [exfalso; apply H, H4; reflexivity | reflexivity].
Qed.

Lemma adicionar_obrigatorios_spec_witness :
  _adicionar_obrigatorios ["Faturamento"; "Triagem"]%string
    ["Faturamento"; "Glicemia"; "Triagem"]%string
  = ["Faturamento"; "Glicemia"; "Triagem"]%string.
Proof.
  apply adicionar_obrigatorios_spec.
  intros p Hp. apply list_elem_of_In in Hp. apply list_elem_of_In.
  simpl in *. intuition.
Defined.

(** X22: adding a procedure to the selection never creates a
    repetition and is a no-op on a selected name; removing a name just
    added to a selection that did not hold it gives the selection back;
    after a removal from a selection without repetitions the name is
    gone. *)
Theorem selecao_adicionar_remover (p : string) (sel : list string) :
  (NoDup sel -> NoDup (_adicionar_procedimento p sel))
  /\ p ∈ _adicionar_procedimento p sel
  /\ (p ∈ sel -> _adicionar_procedimento p sel = sel)
  /\ (p ∉ sel ->
      _remover_procedimento p (_adicionar_procedimento p sel) = sel)
  /\ (NoDup sel -> p ∉ _remover_procedimento p sel)
  /\ (p ∉ sel -> _remover_procedimento p sel = sel).
Proof.
  unfold _adicionar_procedimento, _remover_procedimento, PyList.contains.
  repeat split.
  - intros Hnd. case_bool_decide as Hin; [exact Hnd|].
    apply NoDup_app. split; [exact Hnd|]. split; [|apply NoDup_singleton].
    intros x Hx Hx'. apply list_elem_of_singleton in Hx' as ->. contradiction.
  - case_bool_decide; [assumption | apply elem_of_app; right; left].
  - intros Hin. now rewrite bool_decide_eq_true_2.
  - intros Hout. rewrite (bool_decide_eq_false_2 _ Hout).
    rewrite bool_decide_eq_true_2 by (apply elem_of_app; right; left).
    now apply remove_app_novo.
  - intros Hnd. case_bool_decide as Hin; [now apply remove_nodup_not_in | exact Hin].
  - intros Hout. now rewrite bool_decide_eq_false_2.
Qed.

Lemma selecao_adicionar_remover_witness :
  _remover_procedimento "Glicemia"
    (_adicionar_procedimento "Glicemia" ["Triagem"; "Faturamento"]%string)
  = ["Triagem"; "Faturamento"]%string.
Proof.
  destruct (selecao_adicionar_remover "Glicemia"
              ["Triagem"; "Faturamento"]%string) as (_ & _ & _ & H & _).
  apply H. compute_done.
Defined.

End SelecaoFacts.

(** ** More on the body of the page *)

Section LayoutMais.
Import SistemaClinico.
Local Open Scope Q_scope.

Lemma espaco_disponivel_A4 : espaco_disponivel (snd A4) == 62470 # 127.
Proof. vm_compute. reflexivity. Qed.

Lemma altura_consumida_custo db procs :
  altura_consumida db procs
  == inject_Z (custo db
       (espaco_procedimento (fst (gerar_pdf_checklist db procs)))
       (espaco_subitem (fst (gerar_pdf_checklist db procs)))
       (espaco_extra (fst (gerar_pdf_checklist db procs))) procs).
Proof.
  unfold altura_consumida, gerar_pdf_checklist, corpo_do_checklist.
  cbn [fst snd]. rewrite desenhar_procedimentos_y. ring.
Qed.

(** X23: when the list fits at the nominal sizes, [gerar_pdf_checklist]
    uses exactly the nominal sizes, and the rows use exactly the nominal
    height, which is within the available space. *)
Theorem gerar_pdf_checklist_nominal db procs :
  inject_Z (calcular_espaco_necessario db procs) <= espaco_disponivel (snd A4) ->
  fst (gerar_pdf_checklist db procs) = nominais
  /\ altura_consumida db procs
     == inject_Z (calcular_espaco_necessario db procs)
  /\ altura_consumida db procs <= espaco_disponivel (snd A4).
Proof.
  intros Hle.
  assert (Htm : fst (gerar_pdf_checklist db procs) = nominais).
  { unfold gerar_pdf_checklist, corpo_do_checklist, calcular_tamanhos.
    cbn [fst]. apply Qle_bool_iff in Hle. now rewrite Hle. }
  assert (Hy : altura_consumida db procs
               == inject_Z (calcular_espaco_necessario db procs)).
  { rewrite altura_consumida_custo, Htm, calcular_espaco_necessario_custo.
    reflexivity. }
  split; [exact Htm|]. split; [exact Hy|]. now rewrite Hy.
Qed.

Lemma gerar_pdf_checklist_nominal_witness :
  fst (gerar_pdf_checklist (inserir_todos procedimentos_iniciais ∅)
         ["Triagem"; "Glicemia"; "Faturamento"]%string) = nominais.
Proof.
  apply gerar_pdf_checklist_nominal. vm_compute. discriminate.
Defined.

Lemma py_int_le_Z (x : Q) (z : Z) :
  0 <= x -> x <= inject_Z z -> (py_int x <= z)%Z.
Proof.
  intros H0 Hx. rewrite py_int_floor by exact H0.
  rewrite <- (Qfloor_Z z). now apply Qfloor_resp_le.
Qed.

Lemma py_int_lt_Z (x : Q) (z : Z) :
  0 <= x -> x < inject_Z (z + 1) -> (py_int x <= z)%Z.
Proof.
  intros H0 Hx. rewrite py_int_floor by exact H0.
  pose proof (Qfloor_le x) as Hfl.
  assert (Hlt : inject_Z (Qfloor x) < inject_Z (z + 1))
    by (eapply Qle_lt_trans; eassumption).
  rewrite <- Zlt_Qlt in Hlt. lia.
Qed.

Lemma fator_escala_A4 (nec : Z) :
  espaco_disponivel (snd A4) < inject_Z nec ->
  0 < fator_escala (snd A4) nec /\ fator_escala (snd A4) nec < 1.
Proof.
  intros Hlt. pose proof espaco_disponivel_A4 as HA.
  assert (Hn : 0 < inject_Z nec) by lra.
  unfold fator_escala. split.
  - apply Qlt_shift_div_l; lra.
  - apply Qlt_shift_div_r; lra.
Qed.

(** X24: whatever the list, every size that [gerar_pdf_checklist] uses
    lies between its floor and its nominal value: scaling never enlarges a
    font, a checkbox or a spacing. *)
Theorem gerar_pdf_checklist_limites db procs :
  acima_de pisos (fst (gerar_pdf_checklist db procs))
  /\ acima_de (fst (gerar_pdf_checklist db procs)) nominais.
Proof.
  split; [apply pisos_sempre|].
  unfold gerar_pdf_checklist, corpo_do_checklist. cbn [fst].
  set (nec := calcular_espaco_necessario db procs).
  destruct (Qlt_le_dec (espaco_disponivel (snd A4)) (inject_Z nec)) as [Hlt|Hle].
  - rewrite calcular_tamanhos_escala by exact Hlt. cbv zeta.
    destruct (fator_escala_A4 nec Hlt) as [H0 H1].
    set (f := fator_escala (snd A4) nec) in *.
    unfold acima_de, nominais. simpl.
    repeat split; apply Z.max_lub; try lia;
      apply py_int_le_Z; change (inject_Z ?z) with (z # 1); lra.
  - unfold calcular_tamanhos. apply Qle_bool_iff in Hle. rewrite Hle.
    unfold acima_de, nominais. simpl. repeat split; lia.
Qed.

Lemma custo_limite db (a b c : Z) procs :
  (0 <= b)%Z ->
  (custo db a b c procs <= (a + b + c) * Z.of_nat (length procs))%Z.
Proof.
  intros Hb. induction procs as [|p procs IH]; simpl length; simpl custo; [lia|].
  rewrite Nat2Z.inj_succ. destruct (procedimento_requer_laudo db p); lia.
Qed.

Lemma cabe_com_escala db procs :
  procs <> [] ->
  espaco_disponivel (snd A4) < inject_Z (calcular_espaco_necessario db procs) ->
  3 # 4 <= fator_escala (snd A4) (calcular_espaco_necessario db procs) ->
  altura_consumida db procs <= espaco_disponivel (snd A4).
Proof.
  intros Hne Hlt Hf. rewrite altura_consumida_custo.
  unfold gerar_pdf_checklist, corpo_do_checklist. cbn [fst].
  rewrite calcular_tamanhos_escala by exact Hlt. cbv zeta.
  set (nec := calcular_espaco_necessario db procs) in *.
  set (f := fator_escala (snd A4) nec) in *.
  cbn [espaco_procedimento espaco_subitem espaco_extra].
  assert (Hnec : 35 <= inject_Z nec).
  { unfold nec. rewrite calcular_espaco_necessario_custo.
    change 35 with (inject_Z 35). rewrite <- Zle_Qle.
    now apply custo_nao_vazio. }
  assert (Hprod : f * inject_Z nec == espaco_disponivel (snd A4)).
  { unfold f, fator_escala. field. lra. }
  rewrite (Z.max_r 18), (Z.max_r 15), (Z.max_r 5)
    by (apply py_int_ge; change (inject_Z ?z) with (z # 1); lra).
  rewrite <- Hprod. unfold nec. rewrite calcular_espaco_necessario_custo.
  apply custo_escala; try (apply py_int_le); lra.
Qed.

Lemma gerar_pdf_checklist_nominal_altura db procs :
  inject_Z (calcular_espaco_necessario db procs) <= espaco_disponivel (snd A4) ->
  altura_consumida db procs <= espaco_disponivel (snd A4).
Proof.
  intros Hle. rewrite altura_consumida_custo.
  unfold gerar_pdf_checklist, corpo_do_checklist, calcular_tamanhos.
  cbn [fst]. pose proof Hle as Hb. apply Qle_bool_iff in Hb. rewrite Hb.
  cbn [negb espaco_procedimento espaco_subitem espaco_extra].
  now rewrite <- calcular_espaco_necessario_custo.
Qed.

(** X25: a list of at most 12 procedures always fits between the first
    row and the footer margin, whichever of them require a report. *)
Theorem gerar_pdf_checklist_doze db procs :
  (length procs <= 12)%nat ->
  altura_consumida db procs <= espaco_disponivel (snd A4).
Proof.
  intros Hlen.
  set (nec := calcular_espaco_necessario db procs).
  destruct (Qlt_le_dec (espaco_disponivel (snd A4)) (inject_Z nec)) as [Hlt|Hle];
    [|now apply gerar_pdf_checklist_nominal_altura].
  assert (Hne : procs <> []).
  { intros ->. vm_compute in Hlt. discriminate Hlt. }
  destruct (Qlt_le_dec (fator_escala (snd A4) nec) (3 # 4)) as [Hf|Hf];
    [|now apply cabe_com_escala].
  rewrite altura_consumida_custo.
  unfold gerar_pdf_checklist, corpo_do_checklist. cbn [fst]. fold nec.
  rewrite calcular_tamanhos_escala by exact Hlt. cbv zeta.
  destruct (fator_escala_A4 nec Hlt) as [H0 _].
  set (f := fator_escala (snd A4) nec) in *.
  cbn [espaco_procedimento espaco_subitem espaco_extra].
  assert (H25 : (Z.max 18 (py_int (25 * f)) <= 18)%Z)
    by (apply Z.max_lub; [lia|]; apply py_int_lt_Z;
        [|change (inject_Z (18 + 1)) with 19]; lra).
  assert (H20 : (Z.max 15 (py_int (20 * f)) <= 15)%Z)
    by (apply Z.max_lub; [lia|]; apply py_int_lt_Z;
        [|change (inject_Z (15 + 1)) with 16]; lra).
  assert (H10 : (Z.max 5 (py_int (10 * f)) <= 7)%Z)
    by (apply Z.max_lub; [lia|]; apply py_int_lt_Z;
        [|change (inject_Z (7 + 1)) with 8]; lra).
  pose proof (custo_limite db (Z.max 18 (py_int (25 * f)))
                (Z.max 15 (py_int (20 * f))) (Z.max 5 (py_int (10 * f)))
                procs ltac:(lia)) as Hc.
  assert (Hz : (custo db (Z.max 18 (py_int (25 * f)))
                  (Z.max 15 (py_int (20 * f))) (Z.max 5 (py_int (10 * f)))
                  procs <= 480)%Z) by nia.
  rewrite espaco_disponivel_A4. rewrite Zle_Qle in Hz.
  eapply Qle_trans; [exact Hz|]. vm_compute. discriminate.
Qed.

Lemma gerar_pdf_checklist_doze_witness :
  altura_consumida catalogo_com_laudo (take 12 catorze_procedimentos)
  <= espaco_disponivel (snd A4)
  /\ ~ altura_consumida catalogo_com_laudo (take 13 catorze_procedimentos)
       <= espaco_disponivel (snd A4).
Proof.
  split.
  - apply gerar_pdf_checklist_doze. vm_compute. lia.
  - apply Qlt_not_le. vm_compute. reflexivity.
Defined.

Lemma desenhar_procedimentos_cons db tm i p procs y :
  desenhar_procedimentos db tm i (p :: procs) y
  = (let y1 := y - inject_Z (espaco_procedimento tm) in
     let y2 := if procedimento_requer_laudo db p
               then y1 - inject_Z (espaco_subitem tm) else y1 in
     let y3 := y2 - inject_Z (espaco_extra tm) in
     let r := desenhar_procedimentos db tm (i + 1)%Z procs y3 in
     ({| numero := i; procedimento := p; baseline_y := y;
         checkbox_y_centralizado :=
           y + (inject_Z (fonte_numero tm) / 2)
           - (inject_Z (tamanho_checkbox tm) / 2);
         sub_baseline_y :=
           if procedimento_requer_laudo db p then Some y1 else None |}
        :: fst r, snd r)).
Proof.
  simpl. destruct (desenhar_procedimentos db tm (i + 1)%Z procs _).
  reflexivity.
Qed.

Lemma desenhar_procedimentos_linhas db tm i procs y :
  acima_de pisos tm ->
  let linhas := fst (desenhar_procedimentos db tm i procs y) in
  map procedimento linhas = procs
  /\ map numero linhas = map (fun k => (i + Z.of_nat k)%Z) (seq 0 (length procs))
  /\ Forall (fun l => match sub_baseline_y l with
                      | Some ys =>
                          procedimento_requer_laudo db (procedimento l) = true
                          /\ ys == baseline_y l - inject_Z (espaco_procedimento tm)
                      | None =>
                          procedimento_requer_laudo db (procedimento l) = false
                      end) linhas
  /\ Forall (abaixo_de y) linhas
  /\ StronglySorted desce linhas.
Proof.
  intros Hp. revert i y. induction procs as [|p procs IH]; intros i y.
  - simpl. repeat split; constructor.
  - rewrite desenhar_procedimentos_cons. cbv zeta. cbn [fst].
    match goal with
    | |- context [desenhar_procedimentos db tm (i + 1)%Z procs ?y3] =>
        destruct (IH (i + 1)%Z y3) as (H1 & H2 & H3 & H4 & H5);
        set (y' := y3) in *
    end.
    cbv zeta in *.
    assert (Hy : y' < y).
    { destruct Hp as (_ & _ & _ & Ha & Hb & Hc & _). simpl in Ha, Hb, Hc.
      rewrite Zle_Qle in Ha, Hb, Hc. unfold y'.
      change (inject_Z 18) with 18 in Ha. change (inject_Z 15) with 15 in Hb.
      change (inject_Z 5) with 5 in Hc.
      destruct (procedimento_requer_laudo db p); lra. }
    split; [simpl; now rewrite H1|]. split.
    { simpl. rewrite H2, Z.add_0_r. f_equal.
      rewrite <- seq_shift, map_map. apply map_ext. intros k. lia. }
    split.
    { constructor; [|exact H3]. simpl.
      destruct (procedimento_requer_laudo db p); [split|]; reflexivity. }
    split.
    { constructor; [unfold abaixo_de; simpl; lra|].
      eapply Forall_impl; [exact H4|]. unfold abaixo_de. intros l Hl. lra. }
    constructor; [exact H5|].
    eapply Forall_impl; [exact H4|]. unfold abaixo_de, desce. simpl.
    intros l Hl. lra.
Qed.

(** X26: [gerar_pdf_checklist] draws one row per procedure, in the order
    given and numbered from 1; a row has a sub-row exactly when its
    procedure requires a report, one row spacing below it; the first row is
    at the start of the body and every row is strictly below the rows
    before it. *)
Theorem gerar_pdf_checklist_linhas db procs :
  let linhas := fst (snd (gerar_pdf_checklist db procs)) in
  let tm := fst (gerar_pdf_checklist db procs) in
  map procedimento linhas = procs
  /\ map numero linhas = map Z.of_nat (seq 1 (length procs))
  /\ Forall (fun l => match sub_baseline_y l with
                      | Some ys =>
                          procedimento_requer_laudo db (procedimento l) = true
                          /\ ys == baseline_y l - inject_Z (espaco_procedimento tm)
                      | None =>
                          procedimento_requer_laudo db (procedimento l) = false
                      end) linhas
  /\ Forall (abaixo_de (y_inicio (snd A4))) linhas
  /\ (baseline_y <$> head linhas
      = match procs with [] => None | _ => Some (y_inicio (snd A4)) end)
  /\ StronglySorted desce linhas.
Proof.
  unfold gerar_pdf_checklist, corpo_do_checklist. cbn [fst snd].
  set (tm := calcular_tamanhos _ _).
  destruct (desenhar_procedimentos_linhas db tm 1%Z procs (y_inicio (snd A4)))
    as (H1 & H2 & H3 & H4 & H5); [apply pisos_sempre|].
  cbv zeta in *.
  split; [exact H1|]. split.
  { rewrite H2, <- seq_shift, map_map. apply map_ext. intros k. lia. }
  split; [exact H3|]. split; [exact H4|]. split; [|exact H5].
  destruct procs as [|p procs]; [reflexivity|].
  now rewrite desenhar_procedimentos_cons.
Qed.

End LayoutMais.

(** ** From the form to the store *)

Section GerarFacts.
Import PyText ValidadorAvancado GerenciadorInterface.

Lemma lstrip_idempotente (s : str) : lstrip (lstrip s) = lstrip s.
Proof.
  induction s as [|c s IH]; simpl; [reflexivity|].
  destruct (isspace c) eqn:Hc; [exact IH|]. simpl. now rewrite Hc.
Qed.

Lemma lstrip_snoc (l : str) (c : ascii) :
  isspace c = false -> exists l', lstrip (l ++ [c]) = l' ++ [c].
Proof.
  intros Hc. induction l as [|x l IH]; simpl.
  - rewrite Hc. now exists [].
  - destruct (isspace x); [exact IH|]. now exists (x :: l).
Qed.

Lemma lstrip_rstrip (s : str) : lstrip (rstrip (lstrip s)) = rstrip (lstrip s).
Proof.
  unfold rstrip.
  assert (H : lstrip s = [] \/ exists c t, lstrip s = c :: t /\ isspace c = false).
  { induction s as [|x s IH]; simpl; [now left|].
    destruct (isspace x) eqn:Hx; [exact IH|]. right. eauto. }
  destruct H as [->|(c & t & -> & Hc)]; [reflexivity|].
  simpl rev. destruct (lstrip_snoc (rev t) c Hc) as [l' ->].
  rewrite rev_app_distr. simpl. now rewrite Hc.
Qed.

Lemma strip_idempotente (s : str) : strip (strip s) = strip s.
Proof.
  unfold strip. rewrite lstrip_rstrip. unfold rstrip.
  now rewrite rev_involutive, lstrip_idempotente.
Qed.

Lemma campo_strip_idempotente (s : string) :
  campo_strip (campo_strip s) = campo_strip s.
Proof.
  unfold campo_strip, to_string, of_string.
  now rewrite list_ascii_of_string_of_list_ascii, strip_idempotente.
Qed.

Lemma validar_cpf_so_digitos (s : string) :
  SistemaClinico.validar_cpf
    (to_string (re_sub_nao_digitos (of_string s)))
  = SistemaClinico.validar_cpf s.
Proof.
  assert (E : re_sub_nao_digitos (re_sub_nao_digitos (of_string s))
              = re_sub_nao_digitos (of_string s))
    by apply is_09_filter_id, forallb_re_sub.
  unfold SistemaClinico.validar_cpf. rewrite of_to_string. now rewrite E.
Qed.

Lemma minimos_inv (procs ob : list string) :
  fst (validar_procedimentos_minimos procs ob) = true ->
  procs <> [] /\ forall p, p ∈ ob -> p ∈ procs.
Proof.
  unfold validar_procedimentos_minimos.
  destruct procs as [|q qs]; [discriminate|].
  destruct (List.filter _ ob) as [|m ms] eqn:E; [|discriminate].
  intros _. split; [discriminate|]. intros p Hp.
  apply (proj1 (filter_nil_iff _ _) E) in Hp.
  now apply negb_false_iff, bool_decide_eq_true in Hp.
Qed.

Lemma compatibilidade_membros (tipo : string) (l1 l2 : list string) :
  (forall x, x ∈ l1 <-> x ∈ l2) ->
  fst (validar_compatibilidade_tipo_procedimentos tipo l1)
  = fst (validar_compatibilidade_tipo_procedimentos tipo l2).
Proof.
  intros Hm. unfold validar_compatibilidade_tipo_procedimentos.
  case_bool_decide; [|reflexivity].
  assert (Hl : forall l,
    fst (match List.filter (fun p => bool_decide (p ∈ proibidos_demissional)) l
         with
         | [] => (true, EmptyString)
         | _ => (false,
                 ("Procedimentos "
                    +:+ String.concat ", "
                          (List.filter
                             (fun p => bool_decide (p ∈ proibidos_demissional)) l)
                    +:+ " não são necessários para exame demissional")%string)
         end)
    = negb (existsb (fun p => bool_decide (p ∈ proibidos_demissional)) l)).
  { intros l. induction l as [|x l IH]; simpl; [reflexivity|].
    destruct (bool_decide (x ∈ proibidos_demissional)); [reflexivity|].
    exact IH. }
  rewrite !Hl. f_equal. apply eq_true_iff_eq.
  rewrite !existsb_exists. split; intros (x & Hx & Hp); exists x;
    (split; [|exact Hp]); apply list_elem_of_In; apply list_elem_of_In in Hx;
    now apply Hm.
Qed.

Lemma validar_dados_avancado_inv (sistema : SistemaClinico.t) (f : formulario)
    (m : string) :
  _validar_dados_avancado sistema f = (true, m) ->
  fst (validar_nome_completo (campo_strip (nome_field f))) = true
  /\ SistemaClinico.validar_cpf (campo_strip (cpf_field f)) = true
  /\ fst (validar_procedimentos_minimos (procedimentos_selecionados f)
            (SistemaClinico.procedimentos_obrigatorios sistema)) = true
  /\ fst (validar_compatibilidade_tipo_procedimentos (tipo_exame_value f)
            (procedimentos_selecionados f)) = true.
Proof.
  unfold _validar_dados_avancado.
  destruct (validar_nome_completo _) as [v1 e1]; destruct v1; [|discriminate].
  rewrite validar_cpf_so_digitos.
  destruct (SistemaClinico.validar_cpf _); [|discriminate].
  destruct (validar_procedimentos_minimos _ _) as [v3 e3];
    destruct v3; [|discriminate].
  destruct (validar_compatibilidade_tipo_procedimentos _ _) as [v4 e4];
    destruct v4; [|discriminate].
  intros _. repeat split.
Qed.

(** X27: [_gerar_checklist] never reaches its own empty-selection
    message, changes neither the form nor the store when the validation
    refuses, and leaves the store alone when the PDF cannot be written.
    When it stores a record, the record is the last one, its id is the
    previous count plus one, its name passes [validar_nome_completo], its
    CPF passes [validar_cpf], its procedures are the selection in the order
    of the ordering rule, hold every mandatory name and are compatible with
    its exam type. *)
Theorem gerar_checklist_registra (now : GerenciadorHistorico.agora)
    (carimbo : string) (pdf_ok grava : bool) (sistema : SistemaClinico.t)
    (h : GerenciadorHistorico.t) (f : formulario) :
  let r := _gerar_checklist now carimbo pdf_ok grava sistema h f in
  match snd r with
  | Recusado _ => fst r = (f, h)
  | SemProcedimentos => False
  | ErroPdf => snd (fst r) = h
  | Gerado i filename =>
      exists reg,
        GerenciadorHistorico.historico (snd (fst r))
        = GerenciadorHistorico.historico h ++ [reg]
        /\ GerenciadorHistorico.id reg = i
        /\ i = Z.of_nat (length (GerenciadorHistorico.historico h)) + 1
        /\ GerenciadorHistorico.arquivo_pdf reg = filename
        /\ fst (validar_nome_completo (GerenciadorHistorico.nome reg)) = true
        /\ SistemaClinico.validar_cpf (GerenciadorHistorico.cpf reg) = true
        /\ GerenciadorHistorico.procedimentos reg
           = _ordenar_procedimentos (procedimentos_selecionados f)
        /\ procedimentos_selecionados (fst (fst r))
           = GerenciadorHistorico.procedimentos reg
        /\ (forall p, p ∈ SistemaClinico.procedimentos_obrigatorios sistema ->
                      p ∈ GerenciadorHistorico.procedimentos reg)
        /\ fst (validar_compatibilidade_tipo_procedimentos
                  (GerenciadorHistorico.tipo_exame reg)
                  (GerenciadorHistorico.procedimentos reg)) = true
  end.
Proof.
  unfold _gerar_checklist.
  destruct (_validar_dados_avancado sistema f) as [v m] eqn:Ev.
  destruct v; [|reflexivity]. simpl negb. cbv iota.
  apply validar_dados_avancado_inv in Ev as (Hn & Hc & Hm & Hcomp).
  apply minimos_inv in Hm as [Hne Hall].
  assert (Hsel : _garantir_procedimentos_obrigatorios
                   (SistemaClinico.procedimentos_obrigatorios sistema)
                   (procedimentos_selecionados f)
                 = _ordenar_procedimentos (procedimentos_selecionados f)).
  { unfold _garantir_procedimentos_obrigatorios, acrescentar_obrigatorios.
    destruct (acrescentar_geral
                (SistemaClinico.procedimentos_obrigatorios sistema)
                (procedimentos_selecionados f) []) as (_ & _ & H3 & _).
    cbv zeta in H3. now rewrite (H3 Hall). }
  rewrite Hsel. clear Hsel.
  assert (Ho : _ordenar_procedimentos (procedimentos_selecionados f) <> []).
  { intros Eo. apply Hne.
    pose proof (ordenar_perm (procedimentos_selecionados f)) as Hp.
    rewrite Eo in Hp. now apply Permutation_nil in Hp. }
  destruct (_ordenar_procedimentos (procedimentos_selecionados f))
    as [|q qs] eqn:Eo; [congruence|].
  rewrite <- Eo. clear Ho Eo q qs.
  destruct pdf_ok; [|reflexivity].
  unfold GerenciadorHistorico.adicionar_checklist.
  destruct grava; simpl; eexists; (split; [reflexivity|]);
    (split; [reflexivity|]); (split; [reflexivity|]);
    (split; [reflexivity|]); simpl;
    (split; [fold (campo_strip (campo_strip (nome_field f)));
             now rewrite campo_strip_idempotente|]);
    (split; [exact Hc|]); (split; [reflexivity|]); (split; [reflexivity|]);
    (split; [intros p Hp; rewrite ordenar_perm; auto|]);
    rewrite <- Hcomp; apply compatibilidade_membros;
    intros x; now rewrite ordenar_perm.
Qed.

Lemma gerar_checklist_registra_witness :
  exists reg,
    snd (_gerar_checklist
           {| GerenciadorHistorico.isoformat := "2024-05-02T10:31:07";
              GerenciadorHistorico.strftime := "02/05/2024 10:31" |}
           "20240502_103107" true true (SistemaClinico.init sem_arquivos)
           GerenciadorHistorico.vazio formulario_exemplo)
    = Gerado 1 "checklist_Ana_Lima_20240502_103107.pdf"
    /\ GerenciadorHistorico.id reg = 1
    /\ GerenciadorHistorico.procedimentos reg
       = ["Triagem"; "Exame Clínico"; "Glicemia"; "Faturamento"]%string.
Proof.
  pose proof (gerar_checklist_registra
    {| GerenciadorHistorico.isoformat := "2024-05-02T10:31:07";
       GerenciadorHistorico.strftime := "02/05/2024 10:31" |}
    "20240502_103107" true true (SistemaClinico.init sem_arquivos)
    GerenciadorHistorico.vazio formulario_exemplo) as H.
  cbv zeta in H.
  assert (E : snd (_gerar_checklist
           {| GerenciadorHistorico.isoformat := "2024-05-02T10:31:07";
              GerenciadorHistorico.strftime := "02/05/2024 10:31" |}
           "20240502_103107" true true (SistemaClinico.init sem_arquivos)
           GerenciadorHistorico.vazio formulario_exemplo)
          = Gerado 1 "checklist_Ana_Lima_20240502_103107.pdf")
    by (vm_compute; reflexivity).
  rewrite E in H. destruct H as (reg & _ & Hid & _ & _ & _ & _ & Hp & _).
  exists reg. split; [exact E|]. split; [exact Hid|].
  rewrite Hp. vm_compute. reflexivity.
Defined.

End GerarFacts.

(** ** The history window *)

Section JanelaHistoricoFacts.
Import PyText GerenciadorHistorico InterfaceHistorico.

Lemma startswith_app (a b : str) : startswith a (a ++ b) = true.
Proof.
  induction a as [|c a IH]; simpl; [reflexivity|].
  now rewrite Ascii.eqb_refl, IH.
Qed.

Lemma in_str_meio (pre a post : str) : in_str a (pre ++ a ++ post) = true.
Proof.
  induction pre as [|x pre IH].
  - cbn [app]. destruct (a ++ post) as [|y l] eqn:E.
    + apply app_eq_nil in E as [-> _]. reflexivity.
    + change (in_str a (y :: l)) with (startswith a (y :: l) || in_str a l).
      rewrite <- E, startswith_app. reflexivity.
  - cbn [app].
    change (in_str a (x :: pre ++ a ++ post))
      with (startswith a (x :: pre ++ a ++ post) || in_str a (pre ++ a ++ post)).
    rewrite IH. apply orb_true_r.
Qed.

Lemma lstrip_sufixo (s : str) : exists pre, s = pre ++ lstrip s.
Proof.
  induction s as [|c s [pre IH]]; simpl; [now exists []|].
  destruct (isspace c); [|now exists []].
  exists (c :: pre). simpl. now rewrite <- IH.
Qed.

Lemma strip_meio (s : str) : exists pre post, s = pre ++ strip s ++ post.
Proof.
  destruct (lstrip_sufixo s) as [pre Hpre].
  destruct (lstrip_sufixo (rev (lstrip s))) as [post Hpost].
  exists pre, (rev post). unfold strip, rstrip.
  rewrite <- rev_app_distr, <- Hpost, rev_involutive. exact Hpre.
Qed.

Lemma in_str_strip (s : str) : in_str (lower (strip s)) (lower s) = true.
Proof.
  destruct (strip_meio s) as (pre & post & H).
  rewrite H at 2. unfold lower. rewrite !map_app. apply in_str_meio.
Qed.

Lemma buscar_por_funcionario_proprio_nome (h : t) (r : registro) :
  r ∈ historico h -> buscar_por_funcionario (nome r) h <> [].
Proof.
  intros Hr Hnil.
  assert (Hin : r ∈ buscar_por_funcionario (nome r) h).
  { unfold buscar_por_funcionario.
    rewrite ordenar_recentes_perm, elem_of_list_filter_bool.
    split; [exact Hr | apply in_str_strip]. }
  rewrite Hnil in Hin. inversion Hin.
Qed.

Lemma lista_sem_filtro_geral (h : t) (fs : list funcionario)
    (acc : list registro) :
  (forall f, f ∈ fs -> exists r, r ∈ historico h /\ nome r = func_nome f) ->
  let res := foldl (fun registros func =>
                      match buscar_por_funcionario (func_nome func) h with
                      | r :: _ => registros ++ [r]
                      | [] => registros
                      end) acc fs in
  length res = (length acc + length fs)%nat
  /\ ((forall r, r ∈ acc -> r ∈ historico h) ->
      forall r, r ∈ res -> r ∈ historico h).
Proof.
  revert acc. induction fs as [|f fs IH]; intros acc Hfs; simpl.
  - split; [lia | auto].
  - destruct (Hfs f) as (r0 & Hr0 & Hn0); [left|].
    pose proof (buscar_por_funcionario_proprio_nome h r0 Hr0) as Hne.
    rewrite Hn0 in Hne.
    destruct (buscar_por_funcionario (func_nome f) h) as [|r1 rs] eqn:E;
      [congruence|].
    destruct (IH (acc ++ [r1])) as [H1 H2].
    { intros f' Hf'. apply Hfs. now right. }
    cbv zeta in *. split.
    + rewrite H1, length_app. simpl. lia.
    + intros Hacc. apply H2. intros r [Hr|Hr]%elem_of_app; [auto|].
      apply list_elem_of_singleton in Hr as ->.
      assert (Hin : r1 ∈ buscar_por_funcionario (func_nome f) h)
        by (rewrite E; left).
      unfold buscar_por_funcionario in Hin.
      rewrite ordenar_recentes_perm, elem_of_list_filter_bool in Hin.
      apply Hin.
Qed.

(** X28: opened without a filter, the history window lists stored
    records only, as many as there are distinct names in the store. *)
Theorem carregar_lista_historico_sem_filtro (h : t) :
  length (carregar_lista_historico EmptyString h)
  = length (obter_funcionarios_unicos h)
  /\ forall r, r ∈ carregar_lista_historico EmptyString h -> r ∈ historico h.
Proof.
  unfold carregar_lista_historico.
  rewrite bool_decide_eq_true_2 by reflexivity. simpl negb. cbv iota.
  destruct (lista_sem_filtro_geral h (obter_funcionarios_unicos h) [])
    as [H1 H2].
  { intros f Hf. apply obter_funcionarios_unicos_get in Hf as (r & Hr & -> & _).
    exists r. split; [exact Hr | reflexivity]. }
  cbv zeta in *. split; [exact H1|].
  apply H2. intros r Hr. inversion Hr.
Qed.

(** X29: [_verificar_cpf_no_historico] offers a record exactly when some
    stored record has the typed CPF, dots, hyphens and outer blanks aside;
    the record offered has that CPF and no stored record with that CPF is
    more recent. *)
Theorem verificar_cpf_no_historico_spec (c : string) (h : t) :
  (GerenciadorInterface._verificar_cpf_no_historico c h = None
   <-> forall r, r ∈ historico h -> limpar_cpf (cpf r) <> limpar_cpf c)
  /\ (forall u, GerenciadorInterface._verificar_cpf_no_historico c h = Some u ->
        u ∈ historico h
        /\ limpar_cpf (cpf u) = limpar_cpf c
        /\ forall r, r ∈ historico h -> limpar_cpf (cpf r) = limpar_cpf c ->
                      nao_mais_antigo u r).
Proof.
  unfold GerenciadorInterface._verificar_cpf_no_historico.
  assert (Hmem : forall r, r ∈ buscar_por_cpf c h
                           <-> r ∈ historico h
                               /\ limpar_cpf (cpf r) = limpar_cpf c).
  { intros r. unfold buscar_por_cpf.
    rewrite ordenar_recentes_perm, elem_of_list_filter_bool, bool_decide_eq_true.
    split; intros [H1 H2]; auto. }
  assert (Hs : StronglySorted nao_mais_antigo (buscar_por_cpf c h))
    by apply ordenar_recentes_sorted.
  destruct (buscar_por_cpf c h) as [|u us].
  - split; [|discriminate]. split; [|reflexivity].
    intros _ r Hr Hc. assert (Hin : r ∈ []) by (apply Hmem; auto).
    inversion Hin.
  - split.
    + split; [discriminate|]. intros H. exfalso.
      destruct (proj1 (Hmem u)) as [Hu Hc]; [left|]. exact (H u Hu Hc).
    + intros u' [= <-].
      destruct (proj1 (Hmem u)) as [Hu Hc]; [left|].
      split; [exact Hu|]. split; [exact Hc|].
      intros r Hr Hrc.
      assert (Hin : r ∈ u :: us) by (apply Hmem; auto).
      apply elem_of_cons in Hin as [->|Hin].
      * unfold nao_mais_antigo. apply string_leb_refl.
      * apply StronglySorted_inv in Hs as [_ Hall].
        rewrite Forall_forall in Hall. now apply Hall.
Qed.

Lemma verificar_cpf_no_historico_spec_witness :
  exists u,
    GerenciadorInterface._verificar_cpf_no_historico "12345678909"
      (snd (adicionar (entrada_exemplo "Ana Lima" true) vazio)) = Some u
    /\ u ∈ historico (snd (adicionar (entrada_exemplo "Ana Lima" true) vazio)).
Proof.
  destruct (GerenciadorInterface._verificar_cpf_no_historico "12345678909"
      (snd (adicionar (entrada_exemplo "Ana Lima" true) vazio))) as [u|] eqn:E;
    [|vm_compute in E; discriminate E].
  exists u. split; [reflexivity|].
  destruct (verificar_cpf_no_historico_spec "12345678909"
      (snd (adicionar (entrada_exemplo "Ana Lima" true) vazio))) as [_ H].
  now apply H.
Defined.

End JanelaHistoricoFacts.
